(** * Validated form fields and the custom-properties bag of the data
    contract editor

    A shallow embedding of [ValidatedInput], [ValidatedTextarea] and of the
    two custom-property helpers of the [TermsOfUse] route
    ([customPropertiesLookup], [updateCustomProperty]), together with the
    part of the JavaScript data model these functions touch. *)

From Stdlib Require Import ZArith NArith String Ascii DecimalString.
From Stdlib Require Import Floats.PrimFloat Floats.SpecFloat Floats.FloatOps Uint63.
From Stdlib Require Floats.FloatAxioms.
From Stdlib Require Import ssreflect.
From stdpp Require Import base list.

Set Warnings "-register-all,-rewrite-rw".

Local Open Scope N_scope.

(** ** JavaScript data *)

Module JS.

(** A JavaScript string is a sequence of UTF-16 code units; [length] is the
    number of code units, which is what [String.prototype.length] reports. *)
Abbreviation jsstring := (list N).

(** String literals of the source, which are all ASCII. *)
Definition lit (s : string) : jsstring :=
  List.map N_of_ascii (list_ascii_of_string s).
Arguments lit s%_string.

(** WhiteSpace and LineTerminator code points, the ones
    [String.prototype.trim] strips. All of them are single code units. *)
Definition isWhiteSpace (c : N) : bool :=
  (c =? 9) || (c =? 10) || (c =? 11) || (c =? 12) || (c =? 13) || (c =? 32)
  || (c =? 160) || (c =? 5760) || ((8192 <=? c) && (c <=? 8202))
  || (c =? 8232) || (c =? 8233) || (c =? 8239) || (c =? 8287)
  || (c =? 12288) || (c =? 65279).

Fixpoint trimStart (s : jsstring) : jsstring :=
  match s with
  | c :: s' => if isWhiteSpace c then trimStart s' else s
  | [] => []
  end.

Definition trimEnd (s : jsstring) : jsstring := rev (trimStart (rev s)).

Definition trim (s : jsstring) : jsstring := trimEnd (trimStart s).

(** [s === ''] *)
Definition isEmptyString (s : jsstring) : bool :=
  match s with [] => true | _ => false end.

(** Values: the primitives, arrays, and plain objects (own properties in
    the engine's enumeration order, prototype [Object.prototype]). Numbers
    are IEEE 754 doubles. *)
Inductive jsval :=
| VUndefined
| VNull
| VBool (b : bool)
| VNum (x : float)
| VStr (s : jsstring)
| VArr (elems : list jsval)
| VObj (props : list (jsstring * jsval)).

(** ToBoolean *)
Definition truthy (v : jsval) : bool :=
  match v with
  | VUndefined | VNull => false
  | VBool b => b
  | VNum x => negb (PrimFloat.eqb x 0%float || PrimFloat.is_nan x)
  | VStr s => negb (isEmptyString s)
  | VArr _ | VObj _ => true
  end.

(** [typeof v === 'string'] *)
Definition isString (v : jsval) : bool :=
  match v with VStr _ => true | _ => false end.

(** The number of code units of a string, as a JavaScript number. *)
Definition length_number (s : jsstring) : float :=
  PrimFloat.of_uint63 (Uint63.of_Z (Z.of_nat (length s))).

(** [Array.prototype.join] on strings already converted. *)
Fixpoint join (sep : jsstring) (parts : list jsstring) : jsstring :=
  match parts with
  | [] => []
  | [p] => p
  | p :: rest => p ++ sep ++ join sep rest
  end.

(** *** Own properties

    The own string-keyed properties of an ordinary object, kept in the
    order in which [Object.entries], [Object.keys] and spread visit them:
    array-index keys first, in ascending numeric order, then the other
    keys in the order of their creation. *)

Fixpoint digits_value (acc : N) (s : jsstring) : option N :=
  match s with
  | [] => Some acc
  | c :: s' =>
      if (48 <=? c) && (c <=? 57) then digits_value (acc * 10 + (c - 48)) s'
      else None
  end.

(** An array index is a canonical numeric string (no sign, no leading
    zero) whose value is at most 2^32 - 2. *)
Definition array_index (k : jsstring) : option N :=
  match k with
  | [] => None
  | [48] => Some 0
  | c :: _ =>
      if c =? 48 then None
      else match digits_value 0 k with
           | Some n => if n <? 4294967295 then Some n else None
           | None => None
           end
  end.

Abbreviation properties := (list (jsstring * jsval)).

Definition same_key (k k' : jsstring) : bool := bool_decide (k = k').

Fixpoint own_get (l : properties) (k : jsstring) : option jsval :=
  match l with
  | [] => None
  | (k', v) :: l' => if same_key k' k then Some v else own_get l' k
  end.

Definition own_has (l : properties) (k : jsstring) : bool :=
  match own_get l k with Some _ => true | None => false end.

(** Assigning to an existing own data property keeps its place. *)
Fixpoint own_update (l : properties) (k : jsstring) (v : jsval) : properties :=
  match l with
  | [] => []
  | (k', v') :: l' =>
      if same_key k' k then (k', v) :: l' else (k', v') :: own_update l' k v
  end.

(** A new array-index key goes before the first larger index and before
    every other key. *)
Fixpoint insert_index (n : N) (k : jsstring) (v : jsval) (l : properties)
  : properties :=
  match l with
  | [] => [(k, v)]
  | (k', v') :: l' =>
      match array_index k' with
      | Some m => if n <? m then (k, v) :: l
                  else (k', v') :: insert_index n k v l'
      | None => (k, v) :: l
      end
  end.

(** CreateDataProperty on an extensible ordinary object. *)
Definition defineOwn (l : properties) (k : jsstring) (v : jsval) : properties :=
  if own_has l k then own_update l k v
  else match array_index k with
       | Some n => insert_index n k v l
       | None => l ++ [(k, v)]
       end.

(** The property list is in enumeration order and names each key once. *)
Definition key_before (k k' : jsstring) : bool :=
  match array_index k, array_index k' with
  | Some a, Some b => a <? b
  | Some _, None => true
  | None, Some _ => false
  | None, None => negb (same_key k k')
  end.

Fixpoint enumeration_order (l : properties) : bool :=
  match l with
  | [] => true
  | (k, _) :: l' =>
      forallb (fun e => key_before k (fst e)) l' && enumeration_order l'
  end.

(** An object literal [{k1: v1, ..., ...spread}]: every field, then every
    own property of the spread object, defined in turn, so that a later
    one replaces an earlier one of the same name. *)
Definition objectLiteral (fields : properties) : properties :=
  fold_left (fun acc e => defineOwn acc (fst e) (snd e)) fields [].

(** *** Objects with a prototype

    What a property assignment [o[k] = v] does depends on the prototype
    chain: [Object.prototype] carries the accessor [__proto__], whose
    setter changes the prototype instead of creating a property. *)
Inductive proto_ref :=
| ObjectPrototype
| NullPrototype
| ProtoValue (v : jsval).

Record obj := { obj_proto : proto_ref; obj_own : properties }.

(** [{}] *)
Definition emptyObject : obj := {| obj_proto := ObjectPrototype; obj_own := [] |}.

Definition proto_key : jsstring := lit "__proto__".

(** Whether a lookup of [__proto__] along the chain starting at [p] ends
    at the accessor of [Object.prototype] (and not at a data property of
    that name, or nowhere). *)
Definition reaches_proto_accessor (p : proto_ref) : bool :=
  match p with
  | ObjectPrototype => true
  | NullPrototype => false
  | ProtoValue (VObj props) => negb (own_has props proto_key)
  | ProtoValue _ => true
  end.

(** The setter of [Object.prototype.__proto__]: only an object or [null]
    becomes the prototype, any other value is ignored. *)
Definition set_proto (o : obj) (v : jsval) : obj :=
  match v with
  | VNull => {| obj_proto := NullPrototype; obj_own := obj_own o |}
  | VArr _ | VObj _ => {| obj_proto := ProtoValue v; obj_own := obj_own o |}
  | _ => o
  end.

(** [o[k] = v] on an extensible object whose chain holds plain data. *)
Definition setProp (o : obj) (k : jsstring) (v : jsval) : obj :=
  if own_has (obj_own o) k then
    {| obj_proto := obj_proto o; obj_own := own_update (obj_own o) k v |}
  else if same_key k proto_key && reaches_proto_accessor (obj_proto o) then
    set_proto o v
  else
    {| obj_proto := obj_proto o; obj_own := defineOwn (obj_own o) k v |}.

(** [Object.entries(o)] *)
Definition Object_entries (o : obj) : properties := obj_own o.

(** ** Completions

    A call either returns or throws; [try_catch] is a [try] block whose
    [catch] clause ignores the exception. *)
Inductive error := SyntaxError | TypeError.

Inductive completion (A : Type) :=
| Normal (a : A)
| Throw (e : error).
Arguments Normal {A} a.
Arguments Throw {A} e.

#[global] Instance completion_ret : MRet completion := fun A a => Normal a.
#[global] Instance completion_bind : MBind completion := fun A B f c =>
  match c with
  | Normal a => f a
  | Throw e => Throw e
  end.

Definition try_catch {A} (body handler : completion A) : completion A :=
  match body with
  | Normal a => Normal a
  | Throw _ => handler
  end.

(** Calling [f] on every element in turn, up to the first exception. *)
Section Each.
Context {A B : Type} (f : A -> completion B).

Fixpoint each (l : list A) : completion (list B) :=
  match l with
  | [] => mret []
  | a :: l' => b ← f a; bs ← each l'; mret (b :: bs)
  end.

End Each.

(** ** The engine's built-ins

    The regular-expression engine and the conversions between numbers and
    text belong to the JavaScript engine, not to the editor. *)
Class Engine := {
  regexp : Type;
  (** [new RegExp(pattern)]: throws a SyntaxError on a malformed pattern *)
  RegExp : jsstring -> completion regexp;
  (** [re.test(text)] for a freshly built expression *)
  RegExp_test : regexp -> jsstring -> bool;
  (** Number::toString, as in a template literal or [x.toString()] *)
  Number_toString : float -> jsstring;
  (** the value of a StrNumericLiteral, [NaN] when the text is not one;
      applied to text without surrounding white space *)
  StrNumericLiteral : jsstring -> float;
}.

Section Conversions.
Context `{Engine}.

(** ToString. An array joins the texts of its elements with commas, [null]
    and [undefined] elements giving the empty string. An object is converted
    by the [toString] it finds: the method of [Object.prototype], unless the
    object has an own property of that name. Such a property holds data, not
    a function, and cannot be called: the conversion ends in a TypeError.
    For a value other than [null] and [undefined] this is also what the
    method call [v.toString()] does. *)
Fixpoint ToString (v : jsval) : completion jsstring :=
  match v with
  | VUndefined => mret (lit "undefined")
  | VNull => mret (lit "null")
  | VBool true => mret (lit "true")
  | VBool false => mret (lit "false")
  | VNum x => mret (Number_toString x)
  | VStr s => mret s
  | VArr elems =>
      parts ← each (fun e => match e with
                             | VUndefined | VNull => mret []
                             | _ => ToString e
                             end) elems;
      mret (join (lit ",") parts)
  | VObj props =>
      if own_has props (lit "toString") then Throw TypeError
      else mret (lit "[object Object]")
  end.

(** StringToNumber: text that is empty or only white space is [+0]. *)
Definition StringToNumber (s : jsstring) : float :=
  let t := trim s in
  if isEmptyString t then 0%float else StrNumericLiteral t.

(** [Number(v)]: an array or an object is first converted to text, and
    throws where that conversion throws. *)
Definition Number (v : jsval) : completion float :=
  match v with
  | VUndefined => mret PrimFloat.nan
  | VNull => mret 0%float
  | VBool true => mret 1%float
  | VBool false => mret 0%float
  | VNum x => mret x
  | VStr s => mret (StringToNumber s)
  | VArr _ | VObj _ => text ← ToString v; mret (StringToNumber text)
  end.

End Conversions.

(** The values that can be converted to text: every primitive, an object
    without an own [toString] property, an array of such values. *)
Fixpoint stringifiable (v : jsval) : bool :=
  match v with
  | VArr elems => forallb stringifiable elems
  | VObj props => negb (own_has props (lit "toString"))
  | _ => true
  end.

End JS.
Export JS.

(** ** What a component renders

    The tree a field component returns, reduced to the parts that carry
    validation: the Required badge, the props object of the control
    ([<input>] or [<textarea>]) and the error paragraphs under it. The
    label, the tooltip, the class names, [ref] and the change handler are
    left out; none of them can be named by the pass-through props, which
    hold only what the component's parameter list does not destructure. *)

Record paragraph := {
  p_key : nat;          (* key={idx} *)
  p_id : jsstring;      (* id={`${name}-error`} *)
  p_text : jsstring;    (* {message} *)
}.

Record rendered := {
  requiredBadge : bool;
  controlProps : properties;
  errorParagraphs : list paragraph;
}.

(** The messages on screen, top to bottom. *)
Definition messages (r : rendered) : list jsstring :=
  List.map p_text (errorParagraphs r).

(** [arr.push(x)] *)
Definition push {A} (arr : list A) (x : A) : list A := arr ++ [x].

(** [hasError && errorMessages.map((message, idx) => <p ...>)]: [false]
    renders nothing. *)
Definition renderErrors (name : jsstring) (hasError : bool)
    (errorMessages : list jsstring) : list paragraph :=
  if hasError then
    imap (fun idx message =>
            {| p_key := idx; p_id := name ++ lit "-error"; p_text := message |})
         errorMessages
  else [].

(** [errorMessages.length > 0] *)
Definition nonEmpty {A} (l : list A) : bool :=
  match l with [] => false | _ => true end.

(** [hasError ? `${name}-error` : undefined] *)
Definition describedBy (name : jsstring) (hasError : bool) : jsval :=
  if hasError then VStr (name ++ lit "-error") else VUndefined.

Definition msg_required : jsstring := lit "This field is required".

(** ** ValidatedInput *)

Module Input.

Record props := {
  name : jsstring;
  value : jsval;
  required : bool;                       (* required = false *)
  placeholder : jsval;
  externalErrors : list jsstring;        (* externalErrors = [] *)
  pattern : option jsstring;
  patternMessage : option jsstring;
  minLength : option float;
  maxLength : option float;
  minimum : option float;
  maximum : option float;
  skipInternalValidation : bool;         (* skipInternalValidation = false *)
  rest : properties;                     (* ...props *)
}.

Section Component.
Context `{Engine}.

(** [!skipInternalValidation && required &&
     (!value || value.toString().trim() === '')]: the conversion runs only
    when the operands before it are truthy. *)
Definition hasInternalError (p : props) : completion bool :=
  if negb (skipInternalValidation p) && required p then
    if negb (truthy (value p)) then mret true
    else text ← ToString (value p); mret (isEmptyString (trim text))
  else mret false.

(** The function called in place: [try { return !new RegExp(pattern)
    .test(value); } catch { return false; }] *)
Definition patternMismatch (pattern value : jsstring) : completion bool :=
  try_catch (re ← RegExp pattern; mret (negb (RegExp_test re value)))
            (mret false).

(** [!skipInternalValidation && pattern && value &&
     typeof value === 'string' && value.trim() !== '' && (...)()], read as
    the condition of [if (hasPatternError)]. *)
Definition hasPatternError (p : props) : completion bool :=
  match pattern p, value p with
  | Some pat, VStr s =>
      if negb (skipInternalValidation p) && negb (isEmptyString pat)
         && negb (isEmptyString s) && negb (isEmptyString (trim s))
      then patternMismatch pat s
      else mret false
  | _, _ => mret false
  end.

(** [value && typeof value === 'string' ? value.trim() : ''] *)
Definition trimmed (p : props) : jsstring :=
  match value p with
  | VStr s => if truthy (VStr s) then trim s else []
  | _ => []
  end.

(** [!skipInternalValidation && minLength !== undefined && trimmed !== ''
     && trimmed.length < minLength] *)
Definition hasMinLengthError (p : props) : bool :=
  match minLength p with
  | Some m =>
      negb (skipInternalValidation p) && negb (isEmptyString (trimmed p))
      && PrimFloat.ltb (length_number (trimmed p)) m
  | None => false
  end.

Definition hasMaxLengthError (p : props) : bool :=
  match maxLength p with
  | Some m =>
      negb (skipInternalValidation p) && negb (isEmptyString (trimmed p))
      && PrimFloat.ltb m (length_number (trimmed p))
  | None => false
  end.

(** [value !== undefined && value !== null && value !== ''
     ? Number(value) : NaN]: evaluated on every render, whatever the
    switch and the bounds. *)
Definition numericValue (p : props) : completion float :=
  match value p with
  | VUndefined | VNull | VStr [] => mret PrimFloat.nan
  | v => Number v
  end.

(** [!skipInternalValidation && minimum !== undefined
     && !isNaN(numericValue) && numericValue < minimum], with the constant
    [numericValue] it reads. *)
Definition hasMinimumError (p : props) : completion bool :=
  numericValue ← numericValue p;
  mret match minimum p with
       | Some m =>
           negb (skipInternalValidation p) && negb (PrimFloat.is_nan numericValue)
           && PrimFloat.ltb numericValue m
       | None => false
       end.

Definition hasMaximumError (p : props) : completion bool :=
  numericValue ← numericValue p;
  mret match maximum p with
       | Some m =>
           negb (skipInternalValidation p) && negb (PrimFloat.is_nan numericValue)
           && PrimFloat.ltb m numericValue
       | None => false
       end.

(** [patternMessage || `Value must match pattern: ${pattern}`] *)
Definition msg_pattern (p : props) : jsstring :=
  match patternMessage p with
  | Some m => if isEmptyString m then
                lit "Value must match pattern: " ++ default (lit "undefined") (pattern p)
              else m
  | None => lit "Value must match pattern: " ++ default (lit "undefined") (pattern p)
  end.

(** [`Minimum length is ${minLength} (currently ${trimmed.length})`] *)
Definition msg_minLength (p : props) : jsstring :=
  lit "Minimum length is "
  ++ from_option Number_toString (lit "undefined") (minLength p)
  ++ lit " (currently " ++ Number_toString (length_number (trimmed p)) ++ lit ")".

Definition msg_maxLength (p : props) : jsstring :=
  lit "Maximum length is "
  ++ from_option Number_toString (lit "undefined") (maxLength p)
  ++ lit " (currently " ++ Number_toString (length_number (trimmed p)) ++ lit ")".

(** [`Minimum value is ${minimum}`] *)
Definition msg_minimum (p : props) : jsstring :=
  lit "Minimum value is "
  ++ from_option Number_toString (lit "undefined") (minimum p).

Definition msg_maximum (p : props) : jsstring :=
  lit "Maximum value is "
  ++ from_option Number_toString (lit "undefined") (maximum p).

(** The array the component fills. The checks are evaluated first, in the
    order of the source; then one conditional [push] per check, and
    [push(...externalErrors)]. *)
Definition errorMessages (p : props) : completion (list jsstring) :=
  hasInternalError ← hasInternalError p;
  hasPatternError ← hasPatternError p;
  let hasMinLengthError := hasMinLengthError p in
  let hasMaxLengthError := hasMaxLengthError p in
  hasMinimumError ← hasMinimumError p;
  hasMaximumError ← hasMaximumError p;
  let errorMessages : list jsstring := [] in
  let errorMessages :=
    if (hasInternalError : bool) then push errorMessages msg_required
    else errorMessages in
  let errorMessages :=
    if (hasPatternError : bool) then push errorMessages (msg_pattern p)
    else errorMessages in
  let errorMessages :=
    if hasMinLengthError then push errorMessages (msg_minLength p)
    else errorMessages in
  let errorMessages :=
    if hasMaxLengthError then push errorMessages (msg_maxLength p)
    else errorMessages in
  let errorMessages :=
    if (hasMinimumError : bool) then push errorMessages (msg_minimum p)
    else errorMessages in
  let errorMessages :=
    if (hasMaximumError : bool) then push errorMessages (msg_maximum p)
    else errorMessages in
  mret (errorMessages ++ externalErrors p).

(** The component. The props object of [<input>] lists the attributes in
    the order of the source, [{...props}] last. *)
Definition ValidatedInput (p : props) : completion rendered :=
  errorMessages ← errorMessages p;
  let hasError := nonEmpty errorMessages in
  mret {|
    requiredBadge := required p;
    controlProps :=
      objectLiteral
        ([ (lit "type", VStr (lit "text"));
           (lit "name", VStr (name p));
           (lit "id", VStr (name p));
           (lit "value", value p);
           (lit "placeholder", placeholder p);
           (lit "aria-invalid", VBool hasError);
           (lit "aria-describedby", describedBy (name p) hasError) ]
         ++ rest p);
    errorParagraphs := renderErrors (name p) hasError errorMessages;
  |}.

End Component.
End Input.

(** ** ValidatedTextarea *)

Module Textarea.

Record props := {
  name : jsstring;
  value : jsval;
  required : bool;                       (* required = false *)
  placeholder : jsval;
  rows : jsval;                          (* rows = 3 *)
  minLength : option float;
  maxLength : option float;
  rest : properties;                     (* ...props *)
}.

Section Component.
Context `{Engine}.

(** [value || ''] *)
Definition strValue (p : props) : jsval :=
  if truthy (value p) then value p else VStr [].

(** [strValue.trim()]: only a string has the method; calling what any
    other value has under that name ([undefined]) is a TypeError. *)
Definition trimmed (p : props) : completion jsstring :=
  match strValue p with
  | VStr s => mret (trim s)
  | _ => Throw TypeError
  end.

Definition msg_minLength (m : float) (trimmed : jsstring) : jsstring :=
  lit "Minimum length is " ++ Number_toString m
  ++ lit " (currently " ++ Number_toString (length_number trimmed) ++ lit ")".

Definition msg_maxLength (m : float) (trimmed : jsstring) : jsstring :=
  lit "Maximum length is " ++ Number_toString m
  ++ lit " (currently " ++ Number_toString (length_number trimmed) ++ lit ")".

Definition errorMessages (p : props) : completion (list jsstring) :=
  trimmed ← trimmed p;
  let errorMessages : list jsstring := [] in
  let errorMessages :=
    if required p && isEmptyString trimmed
    then push errorMessages msg_required else errorMessages in
  let errorMessages :=
    match minLength p with
    | Some m =>
        if negb (isEmptyString trimmed)
           && PrimFloat.ltb (length_number trimmed) m
        then push errorMessages (msg_minLength m trimmed) else errorMessages
    | None => errorMessages
    end in
  let errorMessages :=
    match maxLength p with
    | Some m =>
        if negb (isEmptyString trimmed)
           && PrimFloat.ltb m (length_number trimmed)
        then push errorMessages (msg_maxLength m trimmed) else errorMessages
    | None => errorMessages
    end in
  mret errorMessages.

Definition ValidatedTextarea (p : props) : completion rendered :=
  errorMessages ← errorMessages p;
  let hasError := nonEmpty errorMessages in
  mret {|
    requiredBadge := required p;
    controlProps :=
      objectLiteral
        ([ (lit "id", VStr (name p));
           (lit "name", VStr (name p));
           (lit "rows", rows p);
           (lit "value", value p);
           (lit "placeholder", placeholder p);
           (lit "aria-invalid", VBool hasError);
           (lit "aria-describedby", describedBy (name p) hasError) ]
         ++ rest p);
    errorParagraphs := renderErrors (name p) hasError errorMessages;
  |}.

End Component.
End Textarea.

(** ** The Terms of Use route: the custom-properties bag *)

Module TermsOfUse.

(** What [description.customProperties] holds: nothing, the array form of
    the standard, or the keyed form. The elements of the array are values
    of any kind: nothing in the route makes an element an object
    [{property, value}], nor its name a string. *)
Inductive customProps :=
| CUndefined
| CNull
| CArray (items : list jsval)
| CObject (o : obj).

(** [state.getValue('description') || {}] *)
Record description := {
  purpose : jsval;
  usage : jsval;
  limitations : jsval;
  customProperties : customProps;
}.

(** The one path this route writes custom properties to. *)
Definition customPropertiesPath : jsstring := lit "description.customProperties".

(** Modelled from the spec: the editor store ([../store.js]) is not among
    the sources. The view is bound two-way to it: what [setValue] writes at
    a path is what [getValue] reads there afterwards, and a key that holds
    [undefined] reads like a key that is absent. Only the path that
    [updateCustomProperty] writes is modelled. *)
Definition setYamlValue (path : jsstring) (v : customProps) (d : description)
  : description :=
  if same_key path customPropertiesPath then
    {| purpose := purpose d; usage := usage d; limitations := limitations d;
       customProperties := v |}
  else d.

(** [item?.k] for the two keys the route reads, [property] and [value]:
    an own property of an object, and [undefined] on every other value, no
    array, string, number or boolean carrying one of these names. *)
Definition optionalMember (item : jsval) (k : jsstring) : jsval :=
  match item with
  | VObj props => default VUndefined (own_get props k)
  | _ => VUndefined
  end.

(** [item.k] for the same keys: reading a property of [null] or
    [undefined] is a TypeError. *)
Definition member (item : jsval) (k : jsstring) : completion jsval :=
  match item with
  | VUndefined | VNull => Throw TypeError
  | _ => mret (optionalMember item k)
  end.

(** [v === s] for a string [s]: no conversion takes place. *)
Definition strictEqualsString (v : jsval) (s : jsstring) : bool :=
  match v with
  | VStr t => same_key t s
  | _ => false
  end.

(** [arr.reduce(f, init)] *)
Fixpoint Array_reduce {A} (f : A -> jsval -> completion A) (arr : list jsval)
    (acc : A) : completion A :=
  match arr with
  | [] => mret acc
  | item :: arr' => acc' ← f acc item; Array_reduce f arr' acc'
  end.

(** [arr.filter(f)] *)
Fixpoint Array_filter (f : jsval -> completion bool) (arr : list jsval)
  : completion (list jsval) :=
  match arr with
  | [] => mret []
  | item :: arr' =>
      keep ← f item;
      kept ← Array_filter f arr';
      mret (if (keep : bool) then item :: kept else kept)
  end.

(** [arr.findIndex(f)], [None] standing for [-1]: the elements after the
    first hit are not visited. *)
Fixpoint Array_findIndex (f : jsval -> completion bool) (arr : list jsval)
  : completion (option nat) :=
  match arr with
  | [] => mret None
  | item :: arr' =>
      found ← f item;
      if (found : bool) then mret (Some 0%nat)
      else index ← Array_findIndex f arr'; mret (S <$> index)
  end.

(** [({ property: k, value: v })] *)
Definition entry_item (e : jsstring * jsval) : jsval :=
  VObj [(lit "property", VStr (fst e)); (lit "value", snd e)].

(** The normalisation at the head of [updateCustomProperty]: the array
    itself, the entries of an object, or the empty array. *)
Definition currentArray (currentProps : customProps) : list jsval :=
  match currentProps with
  | CArray items => items
  | CObject o => List.map entry_item (Object_entries o)
  | CUndefined | CNull => []
  end.

Section Route.
Context `{Engine}.

(** The callback of [reduce]: [(acc, item) => { if (item?.property !==
    undefined) acc[item.property] = item.value; return acc; }]. The name is
    converted to a property key. *)
Definition reducer (acc : obj) (item : jsval) : completion obj :=
  match optionalMember item (lit "property") with
  | VUndefined => mret acc
  | name =>
      key ← ToString name;
      mret (setProp acc key (optionalMember item (lit "value")))
  end.

(** [if (!Array.isArray(props)) return props || {};
     return props.reduce(..., {})] *)
Definition customPropertiesLookup (d : description) : completion obj :=
  let props := customProperties d in
  match props with
  | CArray items => Array_reduce reducer items emptyObject
  | CObject o => mret o
  | CUndefined | CNull => mret emptyObject
  end.

End Route.

(** [updateCustomProperty(property, value)], the parameters written [prop]
    and [val]. The store is threaded through; when a callback throws,
    nothing is written. *)
Definition updateCustomProperty (prop : jsstring) (val : jsval)
    (d : description) : completion description :=
  let currentArray := currentArray (customProperties d) in
  match val with
  | VUndefined =>
      updated ← Array_filter
                  (fun item => name ← member item (lit "property");
                               mret (negb (strictEqualsString name prop)))
                  currentArray;
      mret (setYamlValue customPropertiesPath
              (if nonEmpty updated then CArray updated else CUndefined) d)
  | _ =>
      existingIndex ← Array_findIndex
                        (fun item => name ← member item (lit "property");
                                     mret (strictEqualsString name prop))
                        currentArray;
      match existingIndex with
      | Some existingIndex =>
          let updated := <[existingIndex := entry_item (prop, val)]> currentArray in
          mret (setYamlValue customPropertiesPath (CArray updated) d)
      | None =>
          mret (setYamlValue customPropertiesPath
                  (CArray (currentArray ++ [entry_item (prop, val)])) d)
      end
  end.

End TermsOfUse.

(** ** A small engine to run the model on examples

    Patterns are literal text, found anywhere in the value; an opening
    parenthesis is the one malformed pattern. Numbers are read and printed
    in decimal when they are non-negative integers. *)

Module Toy.

Fixpoint starts_with (pat s : jsstring) : bool :=
  match pat, s with
  | [], _ => true
  | c :: pat', d :: s' => (c =? d) && starts_with pat' s'
  | _ :: _, [] => false
  end.

Fixpoint occurs (pat s : jsstring) : bool :=
  starts_with pat s
  || match s with
     | [] => false
     | _ :: s' => occurs pat s'
     end.

Definition compile (pat : jsstring) : completion jsstring :=
  if existsb (N.eqb 40) pat then Throw SyntaxError else Normal pat.

Definition float_to_N (x : float) : option N :=
  match Prim2SF x with
  | S754_zero _ => Some 0
  | S754_finite false m e =>
      if (0 <=? e)%Z then Some (N.pos m * 2 ^ Z.to_N e)
      else
        let d := 2 ^ Z.to_N (- e) in
        if N.pos m mod d =? 0 then Some (N.pos m / d) else None
  | _ => None
  end.

Definition print (x : float) : jsstring :=
  match float_to_N x with
  | Some n => lit (NilZero.string_of_uint (N.to_uint n))
  | None => lit "NaN"
  end.

Definition read (s : jsstring) : float :=
  match digits_value 0 s with
  | Some n => PrimFloat.of_uint63 (Uint63.of_Z (Z.of_N n))
  | None => PrimFloat.nan
  end.

#[global] Instance engine : Engine := {|
  regexp := jsstring;
  RegExp := compile;
  RegExp_test := occurs;
  Number_toString := print;
  StrNumericLiteral := read;
|}.

End Toy.

(** ** Sample inputs *)

Module Samples.

(** A text field named [title]; the arguments are the props that the
    examples vary. *)
Definition input (value : jsval) (required skip : bool)
    (pattern : option jsstring) (minimum : option float)
    (externalErrors : list jsstring) (rest : properties) : Input.props :=
  {| Input.name := lit "title";
     Input.value := value;
     Input.required := required;
     Input.placeholder := VUndefined;
     Input.externalErrors := externalErrors;
     Input.pattern := pattern;
     Input.patternMessage := None;
     Input.minLength := None;
     Input.maxLength := Some 40%float;
     Input.minimum := minimum;
     Input.maximum := None;
     Input.skipInternalValidation := skip;
     Input.rest := rest |}.

Definition textarea (value : jsval) (required : bool) (rest : properties)
  : Textarea.props :=
  {| Textarea.name := lit "description-purpose";
     Textarea.value := value;
     Textarea.required := required;
     Textarea.placeholder := VUndefined;
     Textarea.rows := VNum 3%float;
     Textarea.minLength := Some 10%float;
     Textarea.maxLength := None;
     Textarea.rest := rest |}.

Definition blanks : jsval := VStr (lit "   ").

(** An object whose own [toString] is data: it cannot be converted to
    text or to a number. *)
Definition opaque : jsval := VObj [(lit "toString", VStr (lit "x"))].

Definition entry (name text : string) : jsval :=
  VObj [(lit "property", VStr (lit name)); (lit "value", VStr (lit text))].

(** An item whose name is the number 7. *)
Definition seventh (text : string) : jsval :=
  VObj [(lit "property", VNum 7%float); (lit "value", VStr (lit text))].

Definition doc (c : TermsOfUse.customProps) : TermsOfUse.description :=
  {| TermsOfUse.purpose := VStr (lit "Billing data");
     TermsOfUse.usage := VUndefined;
     TermsOfUse.limitations := VUndefined;
     TermsOfUse.customProperties := c |}.

(** Two items of one name. *)
Definition twice : list jsval :=
  [entry "owner" "ann"; entry "owner" "bob"].

(** Items of distinct names, one of them an array index. *)
Definition distinct : list jsval :=
  [entry "owner" "ann"; entry "7" "seven"; entry "tier" "gold"].

Definition keyed : obj :=
  {| obj_proto := ObjectPrototype;
     obj_own := [(lit "7", VStr (lit "seven")); (lit "owner", VStr (lit "ann"))] |}.

End Samples.

(** ** Vocabulary of the statements *)

(** The message a check contributes: one element when it fires. *)
Definition when (fires : bool) (message : jsstring) : list jsstring :=
  if fires then [message] else [].

(** An empty, absent or white-space-only value. *)
Definition isBlank (v : jsval) : bool :=
  match v with
  | VUndefined | VNull => true
  | VStr s => isEmptyString (trim s)
  | _ => false
  end.

(** An absent value or the empty string. *)
Definition isAbsentOrEmpty (v : jsval) : bool :=
  match v with
  | VUndefined | VNull | VStr [] => true
  | _ => false
  end.

(** A non-empty string of white space. *)
Definition isWhiteSpaceOnly (v : jsval) : bool :=
  match v with
  | VStr (c :: s) => forallb isWhiteSpace (c :: s)
  | _ => false
  end.

(** [null] or [undefined]: the elements of which no property can be read. *)
Definition isNullish (v : jsval) : bool :=
  match v with
  | VUndefined | VNull => true
  | _ => false
  end.

(** The name and the value an element of the bag carries, [undefined]
    when it carries none. *)
Definition nameOf (item : jsval) : jsval :=
  TermsOfUse.optionalMember item (lit "property").

Definition valueOf (item : jsval) : jsval :=
  TermsOfUse.optionalMember item (lit "value").

(** The pair an element stands for. *)
Definition pairOf (item : jsval) : jsval * jsval := (nameOf item, valueOf item).

(** The name, when it is a string. *)
Definition textName (item : jsval) : option jsstring :=
  match nameOf item with
  | VStr k => Some k
  | _ => None
  end.

(** The element is named [p]: its name is a string, and that string. *)
Definition hasName (p : jsstring) (item : jsval) : bool :=
  match textName item with
  | Some k => same_key k p
  | None => false
  end.

(** An item that carries a string for a name, other than the accessor
    name. *)
Definition named (item : jsval) : Prop :=
  exists k, textName item = Some k /\ k <> proto_key.

(** The name of the element can be turned into a property key. *)
Definition nameable (item : jsval) : bool := stringifiable (nameOf item).

(** The key an element is filed under: its name converted to text, for an
    element that has a name. *)
Definition keyOf `{Engine} (item : jsval) : option jsstring :=
  match nameOf item with
  | VUndefined => None
  | name => match ToString name with
            | Normal k => Some k
            | Throw _ => None
            end
  end.


(** The entries of a stored collection: the elements of the array form,
    one [{property, value}] object for each key of the keyed form, none
    when nothing is stored. *)
Definition entries (c : TermsOfUse.customProps) : list jsval :=
  match c with
  | TermsOfUse.CArray items => items
  | TermsOfUse.CObject o =>
      (fun e => VObj [(lit "property", VStr (fst e)); (lit "value", snd e)])
      <$> obj_own o
  | TermsOfUse.CUndefined | TermsOfUse.CNull => []
  end.

(** The entries of the other names, in their order. *)
Definition others (p : jsstring) (items : list jsval) : list jsval :=
  List.filter (fun item => negb (hasName p item)) items.

(** What the store holds for an array: the array, or nothing when it is
    empty. *)
Definition stored (items : list jsval) : TermsOfUse.customProps :=
  match items with
  | [] => TermsOfUse.CUndefined
  | _ => TermsOfUse.CArray items
  end.

(** The lookup after one more element whose name can be converted. *)
Definition assign `{Engine} (acc : obj) (item : jsval) : obj :=
  match keyOf item with
  | Some k => setProp acc k (valueOf item)
  | None => acc
  end.

(** The array a set stores: the entry replaced at the first place of the
    name, or appended. *)
Definition withEntry (prop : jsstring) (val : jsval) (items : list jsval)
  : list jsval :=
  match list_find (fun item => hasName prop item) items with
  | Some (existingIndex, _) =>
      <[existingIndex := VObj [(lit "property", VStr prop); (lit "value", val)]]>
        items
  | None => items ++ [VObj [(lit "property", VStr prop); (lit "value", val)]]
  end.

(** The elements an update reads the name of: all of them for a delete,
    those before the first entry of the name for a set (that entry itself
    is an object). *)
Definition visited (prop : jsstring) (val : jsval) (items : list jsval)
  : list jsval :=
  match val with
  | VUndefined => items
  | _ => match list_find (fun item => hasName prop item) items with
         | Some (existingIndex, _) => take existingIndex items
         | None => items
         end
  end.

(** ** The Terms of Use route: the standard fields and the context *)

Module Page.

(** What [useStandardPropertyOverride] hands back for a field, when the
    customization names one; every entry may be missing. *)
Record override := {
  title : option jsstring;
  required : option bool;
  minLength : option float;
  maxLength : option float;
  description : option jsstring;
  placeholder : option jsstring;
}.

(** The results of the customization hooks the route reads for its three
    standard fields. *)
Record customization := {
  isPurposeHidden : bool;
  isUsageHidden : bool;
  isLimitationsHidden : bool;
  purposeOverride : option override;
  usageOverride : option override;
  limitationsOverride : option override;
}.

(** [text || fallback] *)
Definition orText (text : option jsstring) (fallback : jsstring) : jsstring :=
  match text with
  | Some (c :: t) => c :: t
  | _ => fallback
  end.

(** The props a standard field hands to ValidatedTextarea, with the label
    and the tooltip beside them. *)
Record fieldProps := {
  label : jsstring;
  tooltip : jsstring;
  textarea : Textarea.props;
}.

Definition purposeField (c : customization) (d : TermsOfUse.description)
  : fieldProps :=
  {| label := orText (purposeOverride c ≫= title) (lit "Purpose");
     tooltip := orText (purposeOverride c ≫= description)
                  (lit "Intended purpose for the provided data");
     textarea :=
       {| Textarea.name := lit "description-purpose";
          Textarea.value := TermsOfUse.purpose d;
          Textarea.required := default false (purposeOverride c ≫= required);
          Textarea.placeholder :=
            VStr (orText (purposeOverride c ≫= placeholder)
                    (lit "Describe the purpose of this data contract..."));
          Textarea.rows := VNum 3%float;
          Textarea.minLength := purposeOverride c ≫= minLength;
          Textarea.maxLength := purposeOverride c ≫= maxLength;
          Textarea.rest := [] |} |}.

Definition usageField (c : customization) (d : TermsOfUse.description)
  : fieldProps :=
  {| label := orText (usageOverride c ≫= title) (lit "Usage");
     tooltip := orText (usageOverride c ≫= description)
                  (lit "How this data should be used");
     textarea :=
       {| Textarea.name := lit "description-usage";
          Textarea.value := TermsOfUse.usage d;
          Textarea.required := default false (usageOverride c ≫= required);
          Textarea.placeholder :=
            VStr (orText (usageOverride c ≫= placeholder)
                    (lit "Describe how to use this data..."));
          Textarea.rows := VNum 3%float;
          Textarea.minLength := usageOverride c ≫= minLength;
          Textarea.maxLength := usageOverride c ≫= maxLength;
          Textarea.rest := [] |} |}.

Definition limitationsField (c : customization) (d : TermsOfUse.description)
  : fieldProps :=
  {| label := orText (limitationsOverride c ≫= title) (lit "Limitations");
     tooltip := orText (limitationsOverride c ≫= description)
                  (lit "Technical, compliance, and legal limitations for data use");
     textarea :=
       {| Textarea.name := lit "description-limitations";
          Textarea.value := TermsOfUse.limitations d;
          Textarea.required := default false (limitationsOverride c ≫= required);
          Textarea.placeholder :=
            VStr (orText (limitationsOverride c ≫= placeholder)
                    (lit "Describe any limitations or constraints..."));
          Textarea.rows := VNum 3%float;
          Textarea.minLength := limitationsOverride c ≫= minLength;
          Textarea.maxLength := limitationsOverride c ≫= maxLength;
          Textarea.rest := [] |} |}.

Section Component.
Context `{Engine}.

(** [{!isHidden && (<ValidatedTextarea ... />)}] *)
Definition visible (isHidden : bool) (f : fieldProps)
  : completion (list rendered) :=
  if isHidden then mret []
  else r ← Textarea.ValidatedTextarea (textarea f); mret [r].

(** The three standard fields of the route, rendered top to bottom; an
    exception in one of them ends the render. *)
Definition standardFields (c : customization) (d : TermsOfUse.description)
  : completion (list rendered) :=
  purpose ← visible (isPurposeHidden c) (purposeField c d);
  usage ← visible (isUsageHidden c) (usageField c d);
  limitations ← visible (isLimitationsHidden c) (limitationsField c d);
  mret (purpose ++ usage ++ limitations).

(** [{ purpose: description?.purpose, usage: description?.usage,
      limitations: description?.limitations, ...customPropertiesLookup }];
    the lookup is computed first. *)
Definition descriptionContext (d : TermsOfUse.description)
  : completion properties :=
  customPropertiesLookup ← TermsOfUse.customPropertiesLookup d;
  mret (objectLiteral
          ([ (lit "purpose", TermsOfUse.purpose d);
             (lit "usage", TermsOfUse.usage d);
             (lit "limitations", TermsOfUse.limitations d) ]
           ++ Object_entries customPropertiesLookup)).

End Component.

End Page.

(** ** Further vocabulary *)

(** The input that is given what a textarea is given, and nothing else. *)
Definition asInput (q : Textarea.props) : Input.props :=
  {| Input.name := Textarea.name q;
     Input.value := Textarea.value q;
     Input.required := Textarea.required q;
     Input.placeholder := Textarea.placeholder q;
     Input.externalErrors := [];
     Input.pattern := None;
     Input.patternMessage := None;
     Input.minLength := Textarea.minLength q;
     Input.maxLength := Textarea.maxLength q;
     Input.minimum := None;
     Input.maximum := None;
     Input.skipInternalValidation := false;
     Input.rest := Textarea.rest q |}.

(** A value on which [.trim()] can be called after [value || '']: a string
    or a falsy value. *)
Definition isTextOrFalsy (v : jsval) : bool :=
  negb (truthy v) || isString v.

(** The keyed form, when it is the one stored, names each key once. *)
Definition distinctKeys (d : TermsOfUse.description) : Prop :=
  match TermsOfUse.customProperties d with
  | TermsOfUse.CObject o => NoDup (fst <$> obj_own o)
  | _ => True
  end.


(** What the three fixed keys of the context hold. *)
Definition standardValue (d : TermsOfUse.description) (k : jsstring)
  : option jsval :=
  if same_key k (lit "purpose") then Some (TermsOfUse.purpose d)
  else if same_key k (lit "usage") then Some (TermsOfUse.usage d)
  else if same_key k (lit "limitations") then Some (TermsOfUse.limitations d)
  else None.

(** A lower and an upper bound that leave room: one of them missing, or
    the lower one not above the upper one. *)
Definition consistent (lower upper : option float) : bool :=
  match lower, upper with
  | Some a, Some b => PrimFloat.leb a b
  | _, _ => true
  end.

(** The same props with another value. *)
Definition withValue (p : Input.props) (v : jsval) : Input.props :=
  {| Input.name := Input.name p;
     Input.value := v;
     Input.required := Input.required p;
     Input.placeholder := Input.placeholder p;
     Input.externalErrors := Input.externalErrors p;
     Input.pattern := Input.pattern p;
     Input.patternMessage := Input.patternMessage p;
     Input.minLength := Input.minLength p;
     Input.maxLength := Input.maxLength p;
     Input.minimum := Input.minimum p;
     Input.maximum := Input.maximum p;
     Input.skipInternalValidation := Input.skipInternalValidation p;
     Input.rest := Input.rest p |}.

(** The same props with another pattern, or none. *)
Definition withPattern (p : Input.props) (pattern : option jsstring)
  : Input.props :=
  {| Input.name := Input.name p;
     Input.value := Input.value p;
     Input.required := Input.required p;
     Input.placeholder := Input.placeholder p;
     Input.externalErrors := Input.externalErrors p;
     Input.pattern := pattern;
     Input.patternMessage := Input.patternMessage p;
     Input.minLength := Input.minLength p;
     Input.maxLength := Input.maxLength p;
     Input.minimum := Input.minimum p;
     Input.maximum := Input.maximum p;
     Input.skipInternalValidation := Input.skipInternalValidation p;
     Input.rest := Input.rest p |}.

(** ** More sample inputs *)

Module MoreSamples.

(** An input with bounds on both sides. *)
Definition bounded (value : jsval) : Input.props :=
  {| Input.name := lit "quantity";
     Input.value := value;
     Input.required := true;
     Input.placeholder := VUndefined;
     Input.externalErrors := [];
     Input.pattern := None;
     Input.patternMessage := None;
     Input.minLength := Some 2%float;
     Input.maxLength := Some 5%float;
     Input.minimum := Some 1%float;
     Input.maximum := Some 10%float;
     Input.skipInternalValidation := false;
     Input.rest := [] |}.

(** No customization at all. *)
Definition plain : Page.customization :=
  {| Page.isPurposeHidden := false;
     Page.isUsageHidden := false;
     Page.isLimitationsHidden := false;
     Page.purposeOverride := None;
     Page.usageOverride := None;
     Page.limitationsOverride := None |}.

(** The purpose is required and at least ten units long; the limitations
    are hidden. *)
Definition strict : Page.customization :=
  {| Page.isPurposeHidden := false;
     Page.isUsageHidden := false;
     Page.isLimitationsHidden := true;
     Page.purposeOverride :=
       Some {| Page.title := Some (lit "Why");
               Page.required := Some true;
               Page.minLength := Some 10%float;
               Page.maxLength := None;
               Page.description := None;
               Page.placeholder := None |};
     Page.usageOverride := None;
     Page.limitationsOverride := None |}.

(** A description whose purpose is short, with a custom property that is
    itself named purpose. *)
Definition shadowed : TermsOfUse.description :=
  {| TermsOfUse.purpose := VStr (lit "Billing");
     TermsOfUse.usage := VUndefined;
     TermsOfUse.limitations := VNull;
     TermsOfUse.customProperties :=
       TermsOfUse.CArray [Samples.entry "purpose" "custom";
                          Samples.entry "tier" "gold"] |}.

(** A description whose limitations were written as a number. *)
Definition numbered : TermsOfUse.description :=
  {| TermsOfUse.purpose := VStr (lit "Billing");
     TermsOfUse.usage := VUndefined;
     TermsOfUse.limitations := VNum 5%float;
     TermsOfUse.customProperties := TermsOfUse.CUndefined |}.

End MoreSamples.

(** * Properties *)

(** Case split on the condition of the first conditional in the goal. *)
Ltac case_condition :=
  match goal with
  | |- context [if ?c then _ else _] => destruct c
  end.

(** ** Strings *)

Lemma same_key_eq k k' : same_key k k' = true <-> k = k'.
Proof. unfold same_key. apply bool_decide_eq_true. Qed.

Lemma same_key_ne k k' : same_key k k' = false <-> k <> k'.
Proof. unfold same_key. apply bool_decide_eq_false. Qed.

Lemma same_key_refl k : same_key k k = true.
Proof. by apply same_key_eq. Qed.

Lemma trimStart_blank s : forallb isWhiteSpace s = true -> trimStart s = [].
Proof.
  induction s as [|c s IH]; simpl; [done|].
  intros [Hc Hs]%andb_prop. rewrite Hc. by apply IH.
Qed.

Lemma trim_blank s : forallb isWhiteSpace s = true -> trim s = [].
Proof. intros Hs. unfold trim. by rewrite (trimStart_blank s Hs). Qed.

Lemma isWhiteSpaceOnly_blank v : isWhiteSpaceOnly v = true -> isBlank v = true.
Proof.
  destruct v as [| | | |[|c s]| |]; simpl; try done.
  intros Hs. change (isEmptyString (trim (c :: s)) = true).
  by rewrite (trim_blank (c :: s) Hs).
Qed.

(** ** Own properties *)

Lemma own_get_update l k v k' :
  own_has l k = true ->
  own_get (own_update l k v) k' = if same_key k k' then Some v else own_get l k'.
Proof.
  unfold own_has. induction l as [|[k0 v0] l IH]; simpl; [done|].
  destruct (same_key k0 k) eqn:E0.
  - apply same_key_eq in E0 as ->. intros _. simpl. by destruct (same_key k k').
  - intros Hl. simpl. destruct (same_key k0 k') eqn:E1.
    + apply same_key_eq in E1 as ->. apply same_key_ne in E0.
      by rewrite (proj2 (same_key_ne k k')).
    + by apply IH.
Qed.

Lemma own_get_insert_index n l k v k' :
  own_has l k = false ->
  own_get (insert_index n k v l) k' = if same_key k k' then Some v else own_get l k'.
Proof.
  unfold own_has. induction l as [|[k0 v0] l IH]; simpl; [done|].
  destruct (same_key k0 k) eqn:E0; [done|]. intros Hl.
  destruct (array_index k0) as [m|]; [destruct (n <? m)|]; simpl; try done.
  rewrite (IH Hl). destruct (same_key k0 k') eqn:E1; [|done].
  apply same_key_eq in E1 as ->. apply same_key_ne in E0.
  by rewrite (proj2 (same_key_ne k k')).
Qed.

Lemma own_get_snoc l k v k' :
  own_has l k = false ->
  own_get (l ++ [(k, v)]) k' = if same_key k k' then Some v else own_get l k'.
Proof.
  unfold own_has. induction l as [|[k0 v0] l IH]; simpl; [done|].
  destruct (same_key k0 k) eqn:E0; [done|]. intros Hl.
  destruct (same_key k0 k') eqn:E1.
  - apply same_key_eq in E1 as ->. apply same_key_ne in E0.
    by rewrite (proj2 (same_key_ne k k')).
  - by apply IH.
Qed.

Lemma own_get_defineOwn l k v k' :
  own_get (defineOwn l k v) k' = if same_key k k' then Some v else own_get l k'.
Proof.
  unfold defineOwn. destruct (own_has l k) eqn:Hk.
  - by apply own_get_update.
  - destruct (array_index k); [by apply own_get_insert_index | by apply own_get_snoc].
Qed.

Lemma own_get_spread fields base k :
  own_has fields k = false ->
  own_get (fold_left (fun acc e => defineOwn acc (fst e) (snd e)) fields base) k
  = own_get base k.
Proof.
  unfold own_has. revert base.
  induction fields as [|[k0 v0] fields IH]; intros base; simpl; [done|].
  destruct (same_key k0 k) eqn:E0; [done|]. intros Hk.
  by rewrite (IH _ Hk) own_get_defineOwn /= E0.
Qed.

(** ** Conversions *)

Lemma jsval_deep_ind (P : jsval -> Prop) :
  P VUndefined -> P VNull -> (forall b, P (VBool b)) -> (forall x, P (VNum x)) ->
  (forall s, P (VStr s)) ->
  (forall elems, Forall P elems -> P (VArr elems)) ->
  (forall props, P (VObj props)) ->
  forall v, P v.
Proof.
  intros Hundefined Hnull Hbool Hnum Hstr Harr Hobj.
  fix IH 1. intros [| |b|x|s|elems|props].
  - exact Hundefined.
  - exact Hnull.
  - apply Hbool.
  - apply Hnum.
  - apply Hstr.
  - apply Harr. induction elems as [|e elems IHelems]; constructor;
      [apply IH | exact IHelems].
  - apply Hobj.
Qed.

Lemma bind_Normal {A B} (a : A) (f : A -> completion B) : Normal a ≫= f = f a.
Proof. reflexivity. Qed.

Section ConversionFacts.
Context `{Engine}.

(** The conversion to text returns exactly on the values that are
    stringifiable, and throws a TypeError on the others. *)
Lemma ToString_stringifiable v :
  if stringifiable v then exists s, ToString v = Normal s
  else ToString v = Throw TypeError.
Proof.
  induction v as [| |b|x|s|elems IH|props] using jsval_deep_ind;
    simpl; try (by eexists).
  - by destruct b; eexists.
  - assert (if forallb stringifiable elems
            then exists parts,
                each (fun e => match e with
                               | VUndefined | VNull => mret []
                               | _ => ToString e
                               end) elems = Normal parts
            else each (fun e => match e with
                                | VUndefined | VNull => mret []
                                | _ => ToString e
                                end) elems = Throw TypeError) as Heach.
    { induction IH as [|e elems He _ IH]; simpl; [by eexists|].
      destruct (stringifiable e) eqn:Hs; simpl.
      - destruct He as [s He].
        assert (match e with
                | VUndefined | VNull => mret []
                | _ => ToString e
                end = Normal (match e with VUndefined | VNull => [] | _ => s end))
          as -> by (by destruct e).
        simpl. destruct (forallb stringifiable elems).
        + destruct IH as [parts ->]. by eexists.
        + by rewrite IH.
      - assert (match e with
                | VUndefined | VNull => mret []
                | _ => ToString e
                end = Throw TypeError) as -> by (by destruct e).
        done. }
    destruct (forallb stringifiable elems).
    + destruct Heach as [parts ->]. by eexists.
    + by rewrite Heach.
  - destruct (own_has props (lit "toString")); simpl; [done | by eexists].
Qed.

(** So does the conversion to a number. *)
Lemma Number_stringifiable v :
  if stringifiable v then exists x, Number v = Normal x
  else Number v = Throw TypeError.
Proof.
  pose proof (ToString_stringifiable v) as Htext.
  destruct v as [| |b|x|s|elems|props]; try (by simpl; eexists).
  - by destruct b; eexists.
  - unfold Number. destruct (stringifiable (VArr elems)).
    + destruct Htext as [s ->]. by eexists.
    + by rewrite Htext.
  - unfold Number. destruct (stringifiable (VObj props)).
    + destruct Htext as [s ->]. by eexists.
    + by rewrite Htext.
Qed.

Lemma ToString_returns v :
  stringifiable v = true -> exists s, ToString v = Normal s.
Proof. intros Hv. pose proof (ToString_stringifiable v) as Hs. by rewrite Hv in Hs. Qed.

Lemma Number_returns v :
  stringifiable v = true -> exists x, Number v = Normal x.
Proof. intros Hv. pose proof (Number_stringifiable v) as Hs. by rewrite Hv in Hs. Qed.

Lemma Number_throws v :
  stringifiable v = false -> Number v = Throw TypeError.
Proof. intros Hv. pose proof (Number_stringifiable v) as Hs. by rewrite Hv in Hs. Qed.

Lemma ToString_throws v :
  stringifiable v = false -> ToString v = Throw TypeError.
Proof. intros Hv. pose proof (ToString_stringifiable v) as Hs. by rewrite Hv in Hs. Qed.

End ConversionFacts.

(** ** The field components *)

Section Fields.
Context `{Engine}.

Lemma imap_text (f : nat -> jsstring -> paragraph) (l : list jsstring) :
  (forall idx message, p_text (f idx message) = message) ->
  List.map p_text (imap f l) = l.
Proof.
  revert f. induction l as [|m l IH]; intros f Hf; simpl; [done|].
  rewrite Hf. f_equal. apply IH. intros idx message. apply Hf.
Qed.

(** The paragraphs under the control show the computed list, whether or
    not it is empty. *)
Lemma messages_renderErrors name (l : list jsstring) :
  List.map p_text (renderErrors name (nonEmpty l) l) = l.
Proof.
  destruct l as [|m l]; [done|]. unfold renderErrors, nonEmpty.
  by apply imap_text.
Qed.

Lemma patternMismatch_returns pat s : exists b, Input.patternMismatch pat s = Normal b.
Proof.
  unfold Input.patternMismatch, try_catch.
  destruct (RegExp pat) as [re|e]; simpl; eauto.
Qed.

Lemma patternMismatch_malformed pat s e :
  RegExp pat = Throw e -> Input.patternMismatch pat s = Normal false.
Proof. intros Hpat. unfold Input.patternMismatch. by rewrite Hpat. Qed.

(** The pattern check never lets an exception escape. *)
Lemma hasPatternError_returns p : exists b, Input.hasPatternError p = Normal b.
Proof.
  unfold Input.hasPatternError.
  destruct (Input.pattern p) as [pat|], (Input.value p); try (by eexists).
  case_condition; [apply patternMismatch_returns | by eexists].
Qed.

(** The required check, once the text of the value is known. *)
Lemma hasInternalError_eq p text :
  ToString (Input.value p) = Normal text ->
  Input.hasInternalError p
  = Normal (negb (Input.skipInternalValidation p) && Input.required p
            && (negb (truthy (Input.value p)) || isEmptyString (trim text))).
Proof.
  intros Htext. unfold Input.hasInternalError. rewrite Htext.
  destruct (negb (Input.skipInternalValidation p) && Input.required p); [|done].
  by destruct (truthy (Input.value p)).
Qed.

(** The number the range checks compare, once the number of the value is
    known. *)
Lemma numericValue_eq p number :
  Number (Input.value p) = Normal number ->
  Input.numericValue p
  = Normal (if isAbsentOrEmpty (Input.value p) then PrimFloat.nan else number).
Proof.
  unfold Input.numericValue.
  destruct (Input.value p) as [| |b|x|[|c s]|elems|props]; simpl; try done.
Qed.

Lemma range_checks_eq p x :
  Input.numericValue p = Normal x ->
  Input.hasMinimumError p
  = Normal (match Input.minimum p with
            | Some m =>
                negb (Input.skipInternalValidation p) && negb (PrimFloat.is_nan x)
                && PrimFloat.ltb x m
            | None => false
            end)
  /\ Input.hasMaximumError p
     = Normal (match Input.maximum p with
               | Some m =>
                   negb (Input.skipInternalValidation p) && negb (PrimFloat.is_nan x)
                   && PrimFloat.ltb m x
               | None => false
               end).
Proof.
  intros Hx. unfold Input.hasMinimumError, Input.hasMaximumError.
  by rewrite Hx.
Qed.

Lemma range_checks_throw p e :
  Input.numericValue p = Throw e ->
  Input.hasMinimumError p = Throw e /\ Input.hasMaximumError p = Throw e.
Proof.
  intros Hx. unfold Input.hasMinimumError, Input.hasMaximumError.
  by rewrite Hx.
Qed.

Lemma numericValue_returns p :
  stringifiable (Input.value p) = true ->
  exists x, Input.numericValue p = Normal x.
Proof.
  intros [number Hnumber]%Number_returns.
  rewrite (numericValue_eq p number Hnumber). by eexists.
Qed.

Lemma numericValue_throws p :
  stringifiable (Input.value p) = false ->
  Input.numericValue p = Throw TypeError.
Proof.
  intros Hvalue. pose proof (Number_throws _ Hvalue) as Hnumber.
  unfold Input.numericValue.
  by destruct (Input.value p) as [| |b|x|[|c s]|elems|props].
Qed.

(** Every check returns on a value that can be converted to text. *)
Lemma checks_return p :
  stringifiable (Input.value p) = true ->
  exists req pat lo hi,
    Input.hasInternalError p = Normal req
    /\ Input.hasPatternError p = Normal pat
    /\ Input.hasMinimumError p = Normal lo
    /\ Input.hasMaximumError p = Normal hi.
Proof.
  intros Hvalue.
  destruct (ToString_returns _ Hvalue) as [text Htext].
  destruct (numericValue_returns p Hvalue) as [x Hx].
  destruct (hasPatternError_returns p) as [pat Hpat].
  destruct (range_checks_eq p x Hx) as [Hlo Hhi].
  eexists _, pat, _, _.
  split; [by apply hasInternalError_eq|]. by split; [|split].
Qed.

Lemma Input_errorMessages_eq p req pat lo hi :
  Input.hasInternalError p = Normal req ->
  Input.hasPatternError p = Normal pat ->
  Input.hasMinimumError p = Normal lo ->
  Input.hasMaximumError p = Normal hi ->
  Input.errorMessages p
  = Normal (when req msg_required
            ++ when pat (Input.msg_pattern p)
            ++ when (Input.hasMinLengthError p) (Input.msg_minLength p)
            ++ when (Input.hasMaxLengthError p) (Input.msg_maxLength p)
            ++ when lo (Input.msg_minimum p)
            ++ when hi (Input.msg_maximum p)
            ++ Input.externalErrors p).
Proof.
  intros Hreq Hpat Hlo Hhi. unfold Input.errorMessages.
  rewrite Hreq Hpat Hlo Hhi. simpl. f_equal.
  unfold push, when.
  destruct req, pat, (Input.hasMinLengthError p), (Input.hasMaxLengthError p),
    lo, hi; reflexivity.
Qed.

(** The list cannot be computed for a value that cannot be converted. *)
Lemma Input_errorMessages_throws p :
  stringifiable (Input.value p) = false ->
  Input.errorMessages p = Throw TypeError.
Proof.
  intros Hvalue.
  destruct (range_checks_throw p _ (numericValue_throws p Hvalue)) as [Hlo _].
  pose proof (ToString_throws _ Hvalue) as Htext.
  destruct (hasPatternError_returns p) as [pat Hpat].
  unfold Input.errorMessages. rewrite Hpat Hlo.
  unfold Input.hasInternalError. rewrite Htext.
  by repeat case_condition.
Qed.

Lemma objectLiteral_spread fields spread k :
  own_has spread k = false ->
  own_get (objectLiteral (fields ++ spread)) k = own_get (objectLiteral fields) k.
Proof.
  intros Hk. unfold objectLiteral. rewrite fold_left_app.
  by apply own_get_spread.
Qed.

Lemma ValidatedInput_returns p l :
  Input.errorMessages p = Normal l ->
  exists r, Input.ValidatedInput p = Normal r /\ messages r = l
    /\ (own_has (Input.rest p) (lit "aria-invalid") = false ->
        own_get (controlProps r) (lit "aria-invalid") = Some (VBool (nonEmpty l)))
    /\ (own_has (Input.rest p) (lit "aria-describedby") = false ->
        own_get (controlProps r) (lit "aria-describedby")
        = Some (describedBy (Input.name p) (nonEmpty l))).
Proof.
  intros Hl. unfold Input.ValidatedInput. rewrite Hl.
  eexists. split; [reflexivity|].
  unfold messages. cbn [controlProps errorParagraphs].
  split; [apply messages_renderErrors|].
  split; intros Hrest; rewrite (objectLiteral_spread _ _ _ Hrest);
    unfold objectLiteral; cbn [fold_left fst snd]; rewrite !own_get_defineOwn;
    reflexivity.
Qed.

(** ValidatedInput renders for every value that can be converted to text,
    and throws for the others. *)
Lemma ValidatedInput_renders p :
  stringifiable (Input.value p) = true ->
  exists l, Input.errorMessages p = Normal l.
Proof.
  intros (req & pat & lo & hi & Hreq & Hpat & Hlo & Hhi)%checks_return.
  rewrite (Input_errorMessages_eq p req pat lo hi) //. by eexists.
Qed.

Lemma ValidatedInput_throws p :
  stringifiable (Input.value p) = false ->
  Input.ValidatedInput p = Throw TypeError.
Proof.
  intros Hvalue. unfold Input.ValidatedInput.
  by rewrite (Input_errorMessages_throws p Hvalue).
Qed.

Lemma ValidatedInput_stringifiable p :
  if stringifiable (Input.value p)
  then exists r, Input.ValidatedInput p = Normal r
  else Input.ValidatedInput p = Throw TypeError.
Proof.
  destruct (stringifiable (Input.value p)) eqn:Hvalue.
  - destruct (ValidatedInput_renders p Hvalue) as [l Hl].
    destruct (ValidatedInput_returns p l Hl) as (r & Hr & _). by exists r.
  - by apply ValidatedInput_throws.
Qed.

Lemma Textarea_trimmed_string q :
  isString (Textarea.strValue q) = true ->
  exists s, Textarea.strValue q = VStr s /\ Textarea.trimmed q = Normal (trim s).
Proof.
  unfold Textarea.trimmed. destruct (Textarea.strValue q); try done.
  intros _. by eexists.
Qed.

Lemma ValidatedTextarea_returns q l :
  Textarea.errorMessages q = Normal l ->
  exists r, Textarea.ValidatedTextarea q = Normal r /\ messages r = l
    /\ (own_has (Textarea.rest q) (lit "aria-invalid") = false ->
        own_get (controlProps r) (lit "aria-invalid") = Some (VBool (nonEmpty l)))
    /\ (own_has (Textarea.rest q) (lit "aria-describedby") = false ->
        own_get (controlProps r) (lit "aria-describedby")
        = Some (describedBy (Textarea.name q) (nonEmpty l))).
Proof.
  intros Hl. unfold Textarea.ValidatedTextarea. rewrite Hl.
  eexists. split; [reflexivity|].
  unfold messages. cbn [controlProps errorParagraphs].
  split; [apply messages_renderErrors|].
  split; intros Hrest; rewrite (objectLiteral_spread _ _ _ Hrest);
    unfold objectLiteral; cbn [fold_left fst snd]; rewrite !own_get_defineOwn;
    reflexivity.
Qed.

Lemma Textarea_errorMessages_returns q :
  isString (Textarea.strValue q) = true ->
  exists l, Textarea.errorMessages q = Normal l.
Proof.
  intros [s [_ Hs]]%Textarea_trimmed_string.
  unfold Textarea.errorMessages. rewrite Hs. simpl. by eexists.
Qed.

Lemma strValue_text q :
  isString (Textarea.strValue q) = isTextOrFalsy (Textarea.value q).
Proof.
  unfold Textarea.strValue, isTextOrFalsy.
  by destruct (truthy (Textarea.value q)).
Qed.

Lemma trim_nil : trim [] = [].
Proof. reflexivity. Qed.

End Fields.

Section FieldClaims.
Context `{Engine}.

(** C2. ValidatedInput renders for every value that can be converted to
    text, and then shows exactly the messages of the checks that fire, in
    the fixed order required, pattern, minimum length, maximum length,
    minimum value, maximum value, followed by the caller's externalErrors
    unchanged; nothing else appears. Each check is spelt out: the required
    check fires on a falsy value or on text that trims to nothing; the
    pattern check on a string with visible text that a well-formed pattern
    does not match; the length checks on the trimmed string, when it is not
    empty; the range checks on the number the value stands for, when there
    is one. For a value that cannot be converted nothing is rendered: the
    call throws a TypeError. *)
Theorem ValidatedInput_error_list (p : Input.props) :
  let value := Input.value p in
  let active := negb (Input.skipInternalValidation p) in
  let typed := match value with VStr s => trim s | _ => [] end in
  if stringifiable value then
    exists r text number,
      Input.ValidatedInput p = Normal r
      /\ ToString value = Normal text
      /\ Number value = Normal number
      /\ let numeric :=
           if isAbsentOrEmpty value then PrimFloat.nan else number in
         messages r
         = when (active && Input.required p
                 && (negb (truthy value) || isEmptyString (trim text)))
             msg_required
           ++ when (active
                    && match Input.pattern p, value with
                       | Some pat, VStr s =>
                           negb (isEmptyString pat)
                           && negb (isEmptyString (trim s))
                           && match RegExp pat with
                              | Normal re => negb (RegExp_test re s)
                              | Throw _ => false
                              end
                       | _, _ => false
                       end)
               (Input.msg_pattern p)
           ++ when (active && negb (isEmptyString typed)
                    && match Input.minLength p with
                       | Some m => PrimFloat.ltb (length_number typed) m
                       | None => false
                       end)
               (Input.msg_minLength p)
           ++ when (active && negb (isEmptyString typed)
                    && match Input.maxLength p with
                       | Some m => PrimFloat.ltb m (length_number typed)
                       | None => false
                       end)
               (Input.msg_maxLength p)
           ++ when (active && negb (PrimFloat.is_nan numeric)
                    && match Input.minimum p with
                       | Some m => PrimFloat.ltb numeric m
                       | None => false
                       end)
               (Input.msg_minimum p)
           ++ when (active && negb (PrimFloat.is_nan numeric)
                    && match Input.maximum p with
                       | Some m => PrimFloat.ltb m numeric
                       | None => false
                       end)
               (Input.msg_maximum p)
           ++ Input.externalErrors p
  else Input.ValidatedInput p = Throw TypeError.
Proof.
  intros value active typed.
  destruct (stringifiable value) eqn:Hvalue; [|by apply ValidatedInput_throws].
  destruct (ToString_returns _ Hvalue) as [text Htext].
  destruct (Number_returns _ Hvalue) as [number Hnumber].
  pose proof (hasInternalError_eq p text Htext) as Hreq.
  pose proof (numericValue_eq p number Hnumber) as Hnumeric.
  destruct (range_checks_eq p _ Hnumeric) as [Hlo Hhi].
  destruct (hasPatternError_returns p) as [pat Hpat].
  destruct (ValidatedInput_returns p _
              (Input_errorMessages_eq p _ pat _ _ Hreq Hpat Hlo Hhi))
    as (r & Hr & Hm & _).
  exists r, text, number. split; [done|]. split; [done|]. split; [done|].
  cbn zeta. rewrite Hm. subst value active typed.
  f_equal. f_equal; [|f_equal; [|f_equal; [|f_equal; [|f_equal]]]].
  - f_equal. unfold Input.hasPatternError in Hpat.
    destruct (Input.pattern p) as [pt|], (Input.value p) as [| | | |s| |];
      try (injection Hpat as <-; by rewrite ?andb_false_r).
    destruct (Input.skipInternalValidation p); simpl in *;
      [by injection Hpat as <-|].
    destruct (isEmptyString pt); simpl in *; [by injection Hpat as <-|].
    destruct s as [|c s]; simpl in *; [by injection Hpat as <-|].
    destruct (isEmptyString (trim (c :: s))); simpl in *;
      [by injection Hpat as <-|].
    unfold Input.patternMismatch, try_catch in Hpat.
    destruct (RegExp pt); simpl in Hpat; by injection Hpat as <-.
  - f_equal. unfold Input.hasMinLengthError, Input.trimmed.
    destruct (Input.minLength p) as [m|]; [|by rewrite andb_false_r].
    destruct (Input.value p) as [| | | |[|c s]| |]; simpl;
      rewrite ?andb_false_r //.
  - f_equal. unfold Input.hasMaxLengthError, Input.trimmed.
    destruct (Input.maxLength p) as [m|]; [|by rewrite andb_false_r].
    destruct (Input.value p) as [| | | |[|c s]| |]; simpl;
      rewrite ?andb_false_r //.
  - f_equal. destruct (Input.minimum p); by rewrite ?andb_false_r.
  - f_equal. destruct (Input.maximum p); by rewrite ?andb_false_r.
Qed.

(** C4, amended. When building the regular expression from the pattern
    throws, the pattern check of ValidatedInput reports no error, whatever
    the value, and the component behaves exactly as it does without a
    pattern: it renders the same tree for every value that can be converted
    to text, and throws the same TypeError for a value that cannot. *)
Theorem malformed_pattern_no_error (p : Input.props) pat e :
  Input.pattern p = Some pat ->
  RegExp pat = Throw e ->
  Input.hasPatternError p = Normal false
  /\ Input.ValidatedInput p = Input.ValidatedInput (withPattern p None)
  /\ if stringifiable (Input.value p)
     then exists r, Input.ValidatedInput p = Normal r
     else Input.ValidatedInput p = Throw TypeError.
Proof.
  intros Hpat Hthrow.
  assert (Input.hasPatternError p = Normal false) as Hb.
  { unfold Input.hasPatternError. rewrite Hpat.
    destruct (Input.value p); try done.
    case_condition; [by eapply patternMismatch_malformed | done]. }
  split; [done|]. split; [|apply ValidatedInput_stringifiable].
  unfold Input.ValidatedInput.
  assert (Input.errorMessages p = Input.errorMessages (withPattern p None))
    as ->; [|done].
  unfold Input.errorMessages. rewrite Hb.
  assert (Input.hasPatternError (withPattern p None) = Normal false) as ->.
  { unfold Input.hasPatternError. simpl. by destruct (Input.value p). }
  reflexivity.
Qed.

(** C6, amended. Whether a check of ValidatedInput fires is determined by
    the value, the skipInternalValidation switch and that check's own
    constraint option: two runs that agree on these agree on the check,
    however the other options differ. *)
Theorem checks_depend_on_own_options (p1 p2 : Input.props) :
  Input.value p1 = Input.value p2 ->
  Input.skipInternalValidation p1 = Input.skipInternalValidation p2 ->
  (Input.required p1 = Input.required p2 ->
   Input.hasInternalError p1 = Input.hasInternalError p2)
  /\ (Input.pattern p1 = Input.pattern p2 ->
      Input.hasPatternError p1 = Input.hasPatternError p2)
  /\ (Input.minLength p1 = Input.minLength p2 ->
      Input.hasMinLengthError p1 = Input.hasMinLengthError p2)
  /\ (Input.maxLength p1 = Input.maxLength p2 ->
      Input.hasMaxLengthError p1 = Input.hasMaxLengthError p2)
  /\ (Input.minimum p1 = Input.minimum p2 ->
      Input.hasMinimumError p1 = Input.hasMinimumError p2)
  /\ (Input.maximum p1 = Input.maximum p2 ->
      Input.hasMaximumError p1 = Input.hasMaximumError p2).
Proof.
  intros Hvalue Hskip.
  unfold Input.hasInternalError, Input.hasPatternError, Input.hasMinLengthError,
    Input.hasMaxLengthError, Input.hasMinimumError, Input.hasMaximumError,
    Input.trimmed, Input.numericValue.
  rewrite Hvalue Hskip.
  repeat split; intros ->; reflexivity.
Qed.

(** C7, amended. Whenever the component renders, its control carries
    aria-invalid equal to "the error list is non-empty" unless the
    pass-through props name aria-invalid, and aria-describedby equal to
    the name followed by -error when the list is non-empty, undefined
    otherwise, unless the pass-through props name aria-describedby; each
    attribute depends on its own name only. ValidatedInput renders for a
    value that can be converted to text, ValidatedTextarea for a value that
    is a string or falsy. *)
Theorem aria_follows_errors :
  (forall p : Input.props,
     stringifiable (Input.value p) = true ->
     exists r l,
       Input.ValidatedInput p = Normal r /\ Input.errorMessages p = Normal l
       /\ messages r = l
       /\ (own_has (Input.rest p) (lit "aria-invalid") = false ->
           own_get (controlProps r) (lit "aria-invalid")
           = Some (VBool (nonEmpty l)))
       /\ (own_has (Input.rest p) (lit "aria-describedby") = false ->
           own_get (controlProps r) (lit "aria-describedby")
           = Some (if nonEmpty l then VStr (Input.name p ++ lit "-error")
                   else VUndefined)))
  /\ (forall q : Textarea.props,
        isTextOrFalsy (Textarea.value q) = true ->
        exists r l,
          Textarea.ValidatedTextarea q = Normal r
          /\ Textarea.errorMessages q = Normal l
          /\ messages r = l
          /\ (own_has (Textarea.rest q) (lit "aria-invalid") = false ->
              own_get (controlProps r) (lit "aria-invalid")
              = Some (VBool (nonEmpty l)))
          /\ (own_has (Textarea.rest q) (lit "aria-describedby") = false ->
              own_get (controlProps r) (lit "aria-describedby")
              = Some (if nonEmpty l then VStr (Textarea.name q ++ lit "-error")
                      else VUndefined))).
Proof.
  split.
  - intros p [l Hl]%ValidatedInput_renders.
    destruct (ValidatedInput_returns p _ Hl) as (r & Hr & Hm & Ha & Hd).
    by exists r, l.
  - intros q Htext. rewrite -strValue_text in Htext.
    destruct (Textarea_errorMessages_returns q Htext) as [l Hl].
    destruct (ValidatedTextarea_returns q l Hl) as (r & Hr & Hm & Ha & Hd).
    by exists r, l.
Qed.

Lemma blank_stringifiable v : isBlank v = true -> stringifiable v = true.
Proof. by destruct v. Qed.

Lemma blank_hasInternalError p :
  isBlank (Input.value p) = true ->
  Input.hasInternalError p
  = Normal (negb (Input.skipInternalValidation p) && Input.required p).
Proof.
  unfold Input.hasInternalError. intros Hblank.
  destruct (negb (Input.skipInternalValidation p) && Input.required p); [|done].
  destruct (Input.value p) as [| | | |[|c s]| |]; simpl in *; try done.
  by rewrite Hblank.
Qed.

Lemma blank_hasPatternError p :
  isBlank (Input.value p) = true -> Input.hasPatternError p = Normal false.
Proof.
  unfold Input.hasPatternError. intros Hblank.
  destruct (Input.pattern p), (Input.value p); simpl in *; try done.
  by rewrite Hblank /= !andb_false_r.
Qed.

Lemma blank_trimmed p :
  isBlank (Input.value p) = true -> isEmptyString (Input.trimmed p) = true.
Proof.
  unfold Input.trimmed. intros Hblank.
  destruct (Input.value p) as [| | | |s| |]; simpl in *; try done.
  by destruct s.
Qed.

Lemma blank_no_length_error p :
  isBlank (Input.value p) = true ->
  Input.hasMinLengthError p = false /\ Input.hasMaxLengthError p = false.
Proof.
  intros Hblank%blank_trimmed.
  unfold Input.hasMinLengthError, Input.hasMaxLengthError. rewrite Hblank.
  split; [destruct (Input.minLength p) | destruct (Input.maxLength p)];
    rewrite /= ?andb_false_r //.
Qed.

Lemma absent_no_range_error p :
  isAbsentOrEmpty (Input.value p) = true ->
  Input.hasMinimumError p = Normal false /\ Input.hasMaximumError p = Normal false.
Proof.
  unfold Input.hasMinimumError, Input.hasMaximumError, Input.numericValue.
  intros Habsent.
  destruct (Input.value p) as [| | | |[|c s]| |]; simpl in *; try done.
  all: split; [destruct (Input.minimum p) | destruct (Input.maximum p)];
    rewrite /= ?andb_false_r //.
Qed.

Lemma blank_Textarea_trimmed q :
  isBlank (Textarea.value q) = true -> Textarea.trimmed q = Normal [].
Proof.
  unfold Textarea.trimmed, Textarea.strValue. intros Hblank.
  destruct (Textarea.value q) as [| | | |s| |]; simpl in *; try done.
  destruct s as [|c s]; simpl; [done|].
  change (Normal (trim (c :: s)) = Normal []).
  by destruct (trim (c :: s)).
Qed.

(** C3, amended. With required set, internal validation not skipped and
    an empty, absent or white-space-only value, the required check of
    ValidatedInput contributes its message exactly once, at the head of the
    list, and the pattern and length checks do not fire; for an absent
    value or the empty string the range checks do not fire either, so that
    the list is that message followed by the caller's externalErrors.
    ValidatedTextarea, which has neither the switch nor external errors,
    shows exactly that one message. *)
Theorem required_blank_message :
  (forall p : Input.props,
     Input.required p = true ->
     Input.skipInternalValidation p = false ->
     isBlank (Input.value p) = true ->
     Input.hasInternalError p = Normal true
     /\ Input.hasPatternError p = Normal false
     /\ Input.hasMinLengthError p = false
     /\ Input.hasMaxLengthError p = false
     /\ (exists r lo hi,
           Input.hasMinimumError p = Normal lo
           /\ Input.hasMaximumError p = Normal hi
           /\ Input.ValidatedInput p = Normal r
           /\ messages r
              = msg_required
                :: when lo (Input.msg_minimum p)
                ++ when hi (Input.msg_maximum p)
                ++ Input.externalErrors p)
     /\ (isAbsentOrEmpty (Input.value p) = true ->
         Input.hasMinimumError p = Normal false
         /\ Input.hasMaximumError p = Normal false))
  /\ (forall q : Textarea.props,
        Textarea.required q = true ->
        isBlank (Textarea.value q) = true ->
        exists r,
          Textarea.ValidatedTextarea q = Normal r /\ messages r = [msg_required]).
Proof.
  split.
  - intros p Hreq Hskip Hblank.
    pose proof (blank_hasInternalError p Hblank) as Hint.
    rewrite Hreq Hskip in Hint.
    pose proof (blank_hasPatternError p Hblank) as Hpat.
    destruct (blank_no_length_error p Hblank) as [Hmin Hmax].
    repeat split; try done; [|by apply absent_no_range_error..].
    destruct (numericValue_returns p (blank_stringifiable _ Hblank)) as [x Hx].
    destruct (range_checks_eq p x Hx) as [Hlo Hhi].
    destruct (ValidatedInput_returns p _
                (Input_errorMessages_eq p _ _ _ _ Hint Hpat Hlo Hhi))
      as (r & Hr & Hm & _).
    exists r. eexists _, _. split; [exact Hlo|]. split; [exact Hhi|].
    split; [done|]. by rewrite Hm Hmin Hmax.
  - intros q Hreq Hblank.
    assert (Textarea.errorMessages q = Normal [msg_required]) as Hl.
    { unfold Textarea.errorMessages.
      rewrite (blank_Textarea_trimmed q Hblank) Hreq /=.
      by destruct (Textarea.minLength q), (Textarea.maxLength q). }
    destruct (ValidatedTextarea_returns q _ Hl) as (r & Hr & Hm & _).
    by exists r.
Qed.

(** C10, amended. For a value that is a non-empty string of white space,
    the pattern, minimum-length and maximum-length checks report nothing
    in either component, and the required check flags the value whenever
    required is set and, in ValidatedInput, internal validation is not
    skipped. *)
Theorem whitespace_only_value :
  (forall p : Input.props,
     isWhiteSpaceOnly (Input.value p) = true ->
     Input.hasPatternError p = Normal false
     /\ Input.hasMinLengthError p = false
     /\ Input.hasMaxLengthError p = false
     /\ Input.hasInternalError p
        = Normal (negb (Input.skipInternalValidation p) && Input.required p))
  /\ (forall q : Textarea.props,
        isWhiteSpaceOnly (Textarea.value q) = true ->
        exists r,
          Textarea.ValidatedTextarea q = Normal r
          /\ messages r = when (Textarea.required q) msg_required).
Proof.
  split.
  - intros p Hblank%isWhiteSpaceOnly_blank.
    destruct (blank_no_length_error p Hblank) as [Hmin Hmax].
    repeat split; try done;
      [by apply blank_hasPatternError | by apply blank_hasInternalError].
  - intros q Hblank%isWhiteSpaceOnly_blank.
    assert (Textarea.errorMessages q
            = Normal (when (Textarea.required q) msg_required)) as Hl.
    { unfold Textarea.errorMessages.
      rewrite (blank_Textarea_trimmed q Hblank) /=.
      by destruct (Textarea.required q), (Textarea.minLength q),
        (Textarea.maxLength q). }
    destruct (ValidatedTextarea_returns q _ Hl) as (r & Hr & Hm & _).
    by exists r.
Qed.

End FieldClaims.

(** ** The custom-properties bag *)

Section CustomProperties.
Context `{Engine}.
Import TermsOfUse.

Lemma own_has_defineOwn l k v k' :
  own_has (defineOwn l k v) k' = same_key k k' || own_has l k'.
Proof.
  unfold own_has. rewrite own_get_defineOwn. by destruct (same_key k k').
Qed.

(** An assignment leaves every other name alone; the accessor name apart,
    the assigned name then holds the value. *)
Lemma own_get_setProp o k v k' :
  k' <> proto_key ->
  own_get (obj_own (setProp o k v)) k'
  = if same_key k k' then Some v else own_get (obj_own o) k'.
Proof.
  intros Hk'. unfold setProp. destruct (own_has (obj_own o) k) eqn:Hk.
  - by apply own_get_update.
  - destruct (same_key k proto_key) eqn:Hproto; simpl.
    + apply same_key_eq in Hproto as ->.
      rewrite (proj2 (same_key_ne proto_key k')); [done|].
      destruct (reaches_proto_accessor (obj_proto o)); simpl.
      * unfold set_proto. by destruct v.
      * rewrite own_get_defineOwn.
        by rewrite (proj2 (same_key_ne proto_key k')).
    + apply own_get_defineOwn.
Qed.

Lemma setProp_fresh o k v :
  k <> proto_key ->
  own_has (obj_own o) k = false ->
  setProp o k v
  = {| obj_proto := obj_proto o; obj_own := defineOwn (obj_own o) k v |}.
Proof.
  intros Hk Hfresh. unfold setProp. rewrite Hfresh.
  by rewrite (proj2 (same_key_ne k proto_key)).
Qed.

(** *** Elements and their names *)

Lemma member_optional item k :
  isNullish item = false -> member item k = Normal (optionalMember item k).
Proof. by destruct item. Qed.

Lemma member_nullish item k :
  isNullish item = true -> member item k = Throw TypeError.
Proof. by destruct item. Qed.

Lemma hasName_strict prop item :
  strictEqualsString (nameOf item) prop = hasName prop item.
Proof. unfold hasName, textName. by destruct (nameOf item). Qed.

Lemma hasName_not_nullish prop item :
  hasName prop item = true -> isNullish item = false.
Proof. by destruct item. Qed.

Lemma hasName_keyOf prop item :
  hasName prop item = true -> keyOf item = Some prop.
Proof.
  unfold hasName, keyOf, textName.
  destruct (nameOf item); try done. by intros ->%same_key_eq.
Qed.

Lemma textName_keyOf item k : textName item = Some k -> keyOf item = Some k.
Proof.
  unfold textName, keyOf. by destruct (nameOf item).
Qed.

Lemma textName_nameable item k : textName item = Some k -> nameable item = true.
Proof. unfold textName, nameable. by destruct (nameOf item). Qed.

Lemma entry_item_textName e : textName (entry_item e) = Some (fst e).
Proof. reflexivity. Qed.

Lemma entry_item_valueOf e : valueOf (entry_item e) = snd e.
Proof. reflexivity. Qed.

Lemma currentArray_entries c : currentArray c = entries c.
Proof. destruct c; reflexivity. Qed.

(** *** The lookup *)

Lemma reducer_nameable acc item :
  nameable item = true -> reducer acc item = Normal (assign acc item).
Proof.
  unfold reducer, assign, keyOf, nameable, valueOf, nameOf.
  intros [k Hk]%ToString_returns.
  destruct (optionalMember item (lit "property")); try done;
    by rewrite Hk.
Qed.

Lemma reducer_throws acc item :
  nameable item = false -> reducer acc item = Throw TypeError.
Proof.
  unfold reducer, nameable, nameOf. intros Hname.
  pose proof (ToString_throws _ Hname) as Hk.
  destruct (optionalMember item (lit "property")); try done;
    by rewrite Hk.
Qed.

Lemma reduce_nameable items acc :
  forallb nameable items = true ->
  Array_reduce reducer items acc = Normal (fold_left assign items acc).
Proof.
  revert acc. induction items as [|item items IH]; intros acc; simpl; [done|].
  intros [Hitem Hitems]%andb_prop.
  rewrite (reducer_nameable acc item Hitem) /=. by apply IH.
Qed.

Lemma reduce_throws items acc :
  forallb nameable items = false ->
  Array_reduce reducer items acc = Throw TypeError.
Proof.
  revert acc. induction items as [|item items IH]; intros acc; simpl; [done|].
  destruct (nameable item) eqn:Hitem; simpl.
  - intros Hitems. rewrite (reducer_nameable acc item Hitem) /=. by apply IH.
  - intros _. by rewrite (reducer_throws acc item Hitem).
Qed.

Lemma lookup_fold items acc k :
  k <> proto_key ->
  own_get (obj_own (fold_left assign items acc)) k
  = match last (filter (fun it => keyOf it = Some k) items) with
    | Some it => Some (valueOf it)
    | None => own_get (obj_own acc) k
    end.
Proof.
  intros Hk. revert acc.
  induction items as [|it items IH]; intros acc; simpl; [done|].
  rewrite IH. rewrite filter_cons. unfold assign.
  destruct (decide (keyOf it = Some k)) as [Hit|Hit].
  - rewrite Hit. rewrite own_get_setProp; [done|]. rewrite same_key_refl.
    rewrite last_cons. by destruct (last (filter _ items)).
  - destruct (last (filter _ items)); [done|].
    destruct (keyOf it) as [k0|]; [|done].
    rewrite own_get_setProp; [done|].
    rewrite (proj2 (same_key_ne k0 k)); [congruence | done].
Qed.

(** C5, amended. From the array form, customPropertiesLookup maps every
    key other than __proto__ to the value of the last item that is filed
    under it, which is the item's name converted to a property key (to
    nothing when no item is); it returns whenever the names can be
    converted, and throws a TypeError otherwise. An input that is already
    an object is returned as it is, and an absent input gives the empty
    object. *)
Theorem customPropertiesLookup_last_wins :
  (forall d items,
     customProperties d = CArray items ->
     if forallb nameable items
     then exists o,
            customPropertiesLookup d = Normal o
            /\ forall k,
                 k <> proto_key ->
                 own_get (obj_own o) k
                 = valueOf <$> last (filter (fun it => keyOf it = Some k) items)
     else customPropertiesLookup d = Throw TypeError)
  /\ (forall d o,
        customProperties d = CObject o -> customPropertiesLookup d = Normal o)
  /\ (forall d,
        customProperties d = CUndefined \/ customProperties d = CNull ->
        customPropertiesLookup d = Normal emptyObject).
Proof.
  repeat split.
  - intros d items Hd. unfold customPropertiesLookup. rewrite Hd.
    destruct (forallb nameable items) eqn:Hitems; [|by apply reduce_throws].
    eexists. split; [by apply reduce_nameable|].
    intros k Hk. rewrite lookup_fold; [done|]. by destruct (last _).
  - intros d o Hd. unfold customPropertiesLookup. by rewrite Hd.
  - intros d [Hd|Hd]; unfold customPropertiesLookup; by rewrite Hd.
Qed.

(** *** Updates *)

Lemma customProperties_setYamlValue v d :
  customProperties (setYamlValue customPropertiesPath v d) = v.
Proof. reflexivity. Qed.

Lemma entries_stored (updated : list jsval) : entries (stored updated) = updated.
Proof. by destruct updated. Qed.

Lemma stored_nonEmpty (updated : list jsval) :
  (if nonEmpty updated then CArray updated else CUndefined) = stored updated.
Proof. by destruct updated. Qed.

Lemma filter_returns prop (l : list jsval) :
  existsb isNullish l = false ->
  Array_filter (fun item => name ← member item (lit "property");
                            mret (negb (strictEqualsString name prop))) l
  = Normal (others prop l).
Proof.
  induction l as [|item l IH]; simpl; [done|].
  intros [Hitem Hl]%orb_false_elim.
  rewrite (member_optional item _ Hitem) /= (IH Hl) /=.
  change (optionalMember item (lit "property")) with (nameOf item).
  by rewrite hasName_strict.
Qed.

Lemma filter_throws prop (l : list jsval) :
  existsb isNullish l = true ->
  Array_filter (fun item => name ← member item (lit "property");
                            mret (negb (strictEqualsString name prop))) l
  = Throw TypeError.
Proof.
  induction l as [|item l IH]; simpl; [done|].
  destruct (isNullish item) eqn:Hitem; simpl.
  - intros _. by rewrite (member_nullish item _ Hitem).
  - intros Hl. rewrite (member_optional item _ Hitem) /=. by rewrite (IH Hl).
Qed.

Lemma list_find_cons_hasName prop item (l : list jsval) :
  list_find (fun it => hasName prop it) (item :: l)
  = if hasName prop item then Some (0%nat, item)
    else prod_map S id <$> list_find (fun it => hasName prop it) l.
Proof.
  simpl. by destruct (hasName prop item).
Qed.

Lemma findIndex_returns prop val (l : list jsval) :
  val <> VUndefined ->
  existsb isNullish (visited prop val l) = false ->
  Array_findIndex (fun item => name ← member item (lit "property");
                               mret (strictEqualsString name prop)) l
  = Normal (fst <$> list_find (fun it => hasName prop it) l).
Proof.
  intros Hval.
  assert (visited prop val l
          = match list_find (fun it => hasName prop it) l with
            | Some (i, _) => take i l
            | None => l
            end) as -> by (by destruct val).
  induction l as [|item l IH]; [done|].
  rewrite list_find_cons_hasName. cbn [Array_findIndex].
  destruct (hasName prop item) eqn:Hitem.
  - intros _. rewrite (member_optional item _ (hasName_not_nullish _ _ Hitem)) /=.
    change (optionalMember item (lit "property")) with (nameOf item).
    by rewrite hasName_strict Hitem.
  - intros Hl.
    assert (isNullish item = false
            /\ existsb isNullish
                 match list_find (fun it => hasName prop it) l with
                 | Some (i, _) => take i l
                 | None => l
                 end = false) as [Hnull Hrest].
    { destruct (list_find _ l) as [[i x]|]; simpl in Hl;
        by apply orb_false_elim in Hl. }
    rewrite (member_optional item _ Hnull) /=.
    change (optionalMember item (lit "property")) with (nameOf item).
    rewrite hasName_strict Hitem (IH Hrest) /=.
    by destruct (list_find _ l) as [[i x]|].
Qed.

Lemma findIndex_throws prop val (l : list jsval) :
  val <> VUndefined ->
  existsb isNullish (visited prop val l) = true ->
  Array_findIndex (fun item => name ← member item (lit "property");
                               mret (strictEqualsString name prop)) l
  = Throw TypeError.
Proof.
  intros Hval.
  assert (visited prop val l
          = match list_find (fun it => hasName prop it) l with
            | Some (i, _) => take i l
            | None => l
            end) as -> by (by destruct val).
  induction l as [|item l IH]; [done|].
  rewrite list_find_cons_hasName. cbn [Array_findIndex].
  destruct (hasName prop item) eqn:Hitem; [done|].
  destruct (isNullish item) eqn:Hnull.
  - intros _. by rewrite (member_nullish item _ Hnull).
  - intros Hl.
    rewrite (member_optional item _ Hnull) /=.
    change (optionalMember item (lit "property")) with (nameOf item).
    rewrite hasName_strict Hitem IH //.
    destruct (list_find _ l) as [[i x]|]; simpl in Hl; by rewrite Hnull in Hl.
Qed.

(** What an update does, in one equation: it throws when it reads the
    name of [null] or [undefined], and stores the new array otherwise. *)
Lemma update_eq prop val d :
  updateCustomProperty prop val d
  = if existsb isNullish (visited prop val (entries (customProperties d)))
    then Throw TypeError
    else Normal (setYamlValue customPropertiesPath
                   match val with
                   | VUndefined => stored (others prop (entries (customProperties d)))
                   | _ => CArray (withEntry prop val (entries (customProperties d)))
                   end d).
Proof.
  unfold updateCustomProperty. rewrite currentArray_entries.
  destruct (existsb isNullish _) eqn:Hnull.
  - destruct val;
      try (rewrite (findIndex_throws prop _ _ _ Hnull); [discriminate | done]).
    by rewrite (filter_throws prop _ Hnull).
  - destruct val;
      try (rewrite (findIndex_returns prop _ _ _ Hnull); [discriminate|];
           unfold withEntry; by destruct (list_find _ _) as [[i it]|]).
    by rewrite (filter_returns prop _ Hnull) /= stored_nonEmpty.
Qed.

Lemma others_twice prop (l : list jsval) :
  others prop (others prop l) = others prop l.
Proof.
  unfold others. induction l as [|it l IH]; simpl; [done|].
  destruct (negb (hasName prop it)) eqn:Hit; simpl; [|done].
  by rewrite Hit IH.
Qed.

Lemma others_app prop (l1 l2 : list jsval) :
  others prop (l1 ++ l2) = others prop l1 ++ others prop l2.
Proof. apply List.filter_app. Qed.

Lemma others_replace prop val (l : list jsval) i it :
  list_find (fun it => hasName prop it) l = Some (i, it) ->
  others prop (<[i := VObj [(lit "property", VStr prop); (lit "value", val)]]> l)
  = others prop l.
Proof.
  intros (Hi & Hit & _)%list_find_Some.
  rewrite -{2}(take_drop_middle l i it Hi).
  rewrite insert_take_drop; [by eapply lookup_lt_Some|].
  rewrite !others_app. f_equal. unfold others. simpl.
  apply Is_true_true in Hit. rewrite Hit /=.
  unfold hasName. simpl. by rewrite same_key_refl.
Qed.

Lemma others_append prop val (l : list jsval) :
  others prop (l ++ [VObj [(lit "property", VStr prop); (lit "value", val)]])
  = others prop l.
Proof.
  rewrite others_app. unfold others at 2. simpl.
  unfold hasName. simpl. by rewrite same_key_refl /= app_nil_r.
Qed.

Lemma withEntry_others prop val items :
  others prop (withEntry prop val items) = others prop items.
Proof.
  unfold withEntry. destruct (list_find _ items) as [[i it]|] eqn:Hfind.
  - by eapply others_replace.
  - apply others_append.
Qed.

(** C8. Whatever the stored collection and the name, updateCustomProperty
    leaves the entries of every other name as they were and in their
    order: a delete stores the entries without those of the name; a set
    replaces the first entry of the name in place, or appends an entry when
    there is none. The one collection it cannot update is an array holding
    null or undefined among the elements it reads: the call then throws a
    TypeError and stores nothing. *)
Theorem updateCustomProperty_frame (d : description) (prop : jsstring)
    (val : jsval) :
  let existing := entries (customProperties d) in
  if existsb isNullish (visited prop val existing)
  then updateCustomProperty prop val d = Throw TypeError
  else
    exists d',
      updateCustomProperty prop val d = Normal d'
      /\ let updated := entries (customProperties d') in
         others prop updated = others prop existing
         /\ match val with
            | VUndefined => updated = others prop existing
            | _ =>
                match list_find (fun item => hasName prop item) existing with
                | Some (existingIndex, _) =>
                    updated
                    = <[existingIndex := VObj [(lit "property", VStr prop);
                                               (lit "value", val)]]> existing
                | None =>
                    updated
                    = existing ++ [VObj [(lit "property", VStr prop);
                                         (lit "value", val)]]
                end
            end.
Proof.
  intros existing. subst existing. rewrite update_eq.
  destruct (existsb isNullish _); [done|].
  eexists. split; [reflexivity|]. cbn zeta.
  rewrite customProperties_setYamlValue.
  destruct val.
  1: { rewrite entries_stored. split; [apply others_twice | done]. }
  all: split; [apply withEntry_others|]; unfold withEntry; simpl;
    by destruct (list_find _ _) as [[i it]|].
Qed.

Lemma others_nil_not_nullish prop (l : list jsval) :
  others prop l = [] -> existsb isNullish l = false.
Proof.
  unfold others. induction l as [|it l IH]; simpl; [done|].
  destruct (hasName prop it) eqn:Hit; simpl; [|done].
  intros Hl. by rewrite (hasName_not_nullish _ _ Hit) IH.
Qed.

(** C9. A delete that leaves no entry stores undefined under
    description.customProperties, so that the key reads as absent, and
    not an empty array. *)
Theorem delete_last_stores_undefined (d : description) (prop : jsstring) :
  others prop (entries (customProperties d)) = [] ->
  exists d',
    updateCustomProperty prop VUndefined d = Normal d'
    /\ customProperties d' = CUndefined.
Proof.
  intros Hnone. rewrite update_eq. simpl visited.
  rewrite (others_nil_not_nullish prop _ Hnone) Hnone.
  by eexists.
Qed.

(** *** Round trips *)

Lemma key_before_ne k k' : key_before k k' = true -> k <> k'.
Proof.
  intros Hb ->. unfold key_before in Hb.
  destruct (array_index k') as [n|].
  - by rewrite N.ltb_irrefl in Hb.
  - by rewrite same_key_refl in Hb.
Qed.

Lemma own_has_before (l : properties) k :
  Forall (fun e => key_before (fst e) k = true) l -> own_has l k = false.
Proof.
  unfold own_has. induction 1 as [|[k0 v0] l Hk0 _ IH]; simpl; [done|].
  apply key_before_ne in Hk0. by rewrite (proj2 (same_key_ne k0 k)).
Qed.

Lemma insert_index_last n k v (l : properties) :
  array_index k = Some n ->
  Forall (fun e => key_before (fst e) k = true) l ->
  insert_index n k v l = l ++ [(k, v)].
Proof.
  intros Hn. induction 1 as [|[k0 v0] l Hk0 _ IH]; simpl; [done|].
  unfold key_before in Hk0. rewrite Hn in Hk0. simpl in Hk0.
  destruct (array_index k0) as [m|]; [|done].
  apply N.ltb_lt in Hk0.
  rewrite (proj2 (N.ltb_ge n m)); [lia|]. by rewrite IH.
Qed.

Lemma defineOwn_last (l : properties) k v :
  Forall (fun e => key_before (fst e) k = true) l ->
  defineOwn l k v = l ++ [(k, v)].
Proof.
  intros Hl. unfold defineOwn. rewrite (own_has_before l k Hl).
  destruct (array_index k) as [n|] eqn:Hn; [|done].
  by apply insert_index_last.
Qed.

Lemma enumeration_order_before (l1 l2 : properties) e :
  enumeration_order (l1 ++ e :: l2) = true ->
  Forall (fun e1 => key_before (fst e1) (fst e) = true) l1.
Proof.
  induction l1 as [|[k1 v1] l1 IH]; simpl; [constructor|].
  intros [Hall Hrest]%andb_prop. constructor; [|by apply IH].
  rewrite forallb_app in Hall. apply andb_prop in Hall as [_ Hall].
  simpl in Hall. by apply andb_prop in Hall as [? _].
Qed.

(** Rebuilding an object from its own entries, one assignment each. *)
Lemma rebuild_fold pr (l2 l1 : properties) :
  enumeration_order (l1 ++ l2) = true ->
  own_has l2 proto_key = false ->
  fold_left assign (List.map entry_item l2) {| obj_proto := pr; obj_own := l1 |}
  = {| obj_proto := pr; obj_own := l1 ++ l2 |}.
Proof.
  revert l1. induction l2 as [|[k v] l2 IH]; intros l1 Horder Hproto; simpl.
  - by rewrite app_nil_r.
  - unfold own_has in Hproto. simpl in Hproto.
    destruct (same_key k proto_key) eqn:Hk; [done|]. apply same_key_ne in Hk.
    pose proof (enumeration_order_before l1 l2 (k, v) Horder) as Hbefore.
    unfold assign at 2. simpl.
    rewrite setProp_fresh //=; [by apply own_has_before|].
    rewrite defineOwn_last //.
    rewrite IH; rewrite -?app_assoc //.
Qed.

Lemma entries_nameable (l : properties) :
  forallb nameable (List.map entry_item l) = true.
Proof. by induction l as [|[k v] l IH]. Qed.

Lemma insert_index_perm n k v (l : properties) :
  Permutation (insert_index n k v l) ((k, v) :: l).
Proof.
  induction l as [|[k0 v0] l IH]; simpl; [done|].
  destruct (array_index k0) as [m|]; [destruct (n <? m)|]; try done.
  rewrite IH. apply perm_swap.
Qed.

Lemma defineOwn_fresh_perm (l : properties) k v :
  own_has l k = false -> Permutation (defineOwn l k v) ((k, v) :: l).
Proof.
  intros Hk. unfold defineOwn. rewrite Hk.
  destruct (array_index k); [apply insert_index_perm|].
  symmetry. apply Permutation_cons_append.
Qed.

Lemma named_nameable (items : list jsval) :
  Forall named items -> forallb nameable items = true.
Proof.
  induction 1 as [|it items [k [Hk _]] _ IH]; simpl; [done|].
  by rewrite (textName_nameable it k Hk).
Qed.

Lemma pairOf_entry_item e : pairOf (entry_item e) = (VStr (fst e), snd e).
Proof. reflexivity. Qed.

Lemma pairOf_named it k : textName it = Some k -> pairOf it = (VStr k, valueOf it).
Proof.
  unfold pairOf, textName. destruct (nameOf it); try done. by intros [= ->].
Qed.

(** Building the lookup from items of pairwise distinct names. *)
Lemma lookup_fold_perm (items : list jsval) (acc : obj) :
  Forall named items ->
  NoDup (textName <$> items) ->
  Forall (fun it => forall k, textName it = Some k ->
                              own_has (obj_own acc) k = false) items ->
  Permutation (pairOf <$> List.map entry_item (obj_own (fold_left assign items acc)))
              ((pairOf <$> List.map entry_item (obj_own acc)) ++ (pairOf <$> items)).
Proof.
  revert acc. induction items as [|it items IH]; intros acc Hnamed Hdup Hfresh.
  - by rewrite /= app_nil_r.
  - apply Forall_cons in Hnamed as [[k [Hk Hproto]] Hnamed].
    rewrite fmap_cons in Hdup. apply NoDup_cons in Hdup as [Hit Hdup].
    apply Forall_cons in Hfresh as [Hk_fresh Hfresh].
    specialize (Hk_fresh k Hk).
    simpl. unfold assign at 2. rewrite (textName_keyOf it k Hk).
    rewrite setProp_fresh //. rewrite IH //=.
    + apply Forall_forall. intros it2 Hit2 k2 Hk2.
      rewrite own_has_defineOwn.
      rewrite (proj1 (Forall_forall _ _) Hfresh it2 Hit2 k2 Hk2) orb_false_r.
      apply same_key_ne. intros ->. apply Hit.
      rewrite Hk -Hk2. by apply list_elem_of_fmap_2.
    + rewrite (defineOwn_fresh_perm _ _ _ Hk_fresh) /=.
      rewrite (pairOf_named it k Hk).
      change (pairOf (entry_item (k, valueOf it))) with (VStr k, valueOf it).
      by rewrite -Permutation_middle.
Qed.

(** C1, amended. The two forms round-trip when the items are objects
    whose names are strings, pairwise distinct, none of them __proto__.
    An array of such items, turned into the lookup and back into an array,
    gives the same property/value pairs up to their order. An object with
    the ordinary prototype, turned into an array and back into a lookup,
    gives the same object. *)
Theorem custom_properties_round_trip :
  (forall d items,
     customProperties d = CArray items ->
     Forall named items ->
     NoDup (textName <$> items) ->
     exists o,
       customPropertiesLookup d = Normal o
       /\ Permutation (pairOf <$> currentArray (CObject o)) (pairOf <$> items))
  /\ (forall d d' o,
        customProperties d = CObject o ->
        obj_proto o = ObjectPrototype ->
        enumeration_order (obj_own o) = true ->
        own_has (obj_own o) proto_key = false ->
        customProperties d' = CArray (currentArray (customProperties d)) ->
        customPropertiesLookup d' = Normal o).
Proof.
  split.
  - intros d items Hd Hnamed Hdup.
    unfold customPropertiesLookup. rewrite Hd.
    rewrite (reduce_nameable _ _ (named_nameable items Hnamed)).
    eexists. split; [reflexivity|].
    unfold currentArray, Object_entries.
    rewrite lookup_fold_perm //.
    apply Forall_forall. by intros.
  - intros d d' [pr own] Hd Hpr Horder Hproto Hd'. simpl in *. subst pr.
    unfold customPropertiesLookup. rewrite Hd' Hd /=.
    unfold Object_entries, emptyObject. simpl.
    rewrite (reduce_nameable _ _ (entries_nameable own)).
    by rewrite rebuild_fold.
Qed.

End CustomProperties.

(** ** The statements at sample inputs *)

Import Samples.

(** C4, as stated, fails: the pattern "(" cannot be compiled, and with it,
    as with any pattern, the render of a value that cannot be converted to
    text ends in a TypeError, thrown where the value is turned into a
    number. *)
Lemma malformed_pattern_render_throws :
  @RegExp Toy.engine (lit "(") = Throw SyntaxError
  /\ stringifiable opaque = false
  /\ forall (E : Engine) (pat : jsstring),
       Input.ValidatedInput (input opaque false false (Some pat) None [] [])
       = Throw TypeError.
Proof. split; [done|]. split; [done|]. by intros E pat. Qed.

(** C4, amended, at the pattern "(" of the toy engine. *)
Lemma malformed_pattern_witness :
  Input.hasPatternError (input (VStr (lit "abc")) true false (Some (lit "(")) None [] [])
  = Normal false
  /\ Input.ValidatedInput
       (input (VStr (lit "abc")) true false (Some (lit "(")) None [] [])
     = Input.ValidatedInput
         (withPattern (input (VStr (lit "abc")) true false (Some (lit "(")) None [] [])
            None)
  /\ exists r,
       Input.ValidatedInput
         (input (VStr (lit "abc")) true false (Some (lit "(")) None [] [])
       = Normal r.
Proof.
  apply (malformed_pattern_no_error
           (input (VStr (lit "abc")) true false (Some (lit "(")) None [] [])
           (lit "(") SyntaxError); reflexivity.
Defined.

(** C3, as stated, fails when internal validation is skipped: a required
    field with an empty value then shows no message at all. *)
Lemma required_empty_skipped_shows_nothing :
  Input.required (input (VStr []) true true None None [] []) = true
  /\ isBlank (Input.value (input (VStr []) true true None None [] [])) = true
  /\ forall E : Engine,
       exists r,
         Input.ValidatedInput (input (VStr []) true true None None [] [])
         = Normal r
         /\ messages r = [].
Proof.
  split; [done|]. split; [done|]. intros E. by eexists.
Qed.

(** C3, amended, at a white-space-only input value and an absent textarea
    value. *)
Lemma required_blank_witness :
  (exists r,
     Input.ValidatedInput (input blanks true false None None [lit "Taken"] [])
     = Normal r
     /\ messages r = [msg_required; lit "Taken"])
  /\ exists r,
       Textarea.ValidatedTextarea (textarea VUndefined true []) = Normal r
       /\ messages r = [msg_required].
Proof.
  destruct required_blank_message as [Hinput Htextarea]. split.
  - destruct (Hinput (input blanks true false None None [lit "Taken"] []))
      as (_ & _ & _ & _ & (r & lo & hi & Hlo & Hhi & Hr & Hm) & _);
      [reflexivity..|].
    exists r. split; [exact Hr|]. rewrite Hm.
    injection Hlo as <-. injection Hhi as <-. reflexivity.
  - apply Htextarea; reflexivity.
Defined.

(** C6, as stated, fails: two runs with the same value and the same
    [required] disagree on the required check when one of them skips
    internal validation. *)
Lemma required_check_depends_on_skip :
  Input.value (input (VStr []) true false None None [] [])
  = Input.value (input (VStr []) true true None None [] [])
  /\ Input.required (input (VStr []) true false None None [] [])
     = Input.required (input (VStr []) true true None None [] [])
  /\ forall E : Engine,
       Input.hasInternalError (input (VStr []) true false None None [] [])
       = Normal true
       /\ Input.hasInternalError (input (VStr []) true true None None [] [])
          = Normal false.
Proof. repeat split. Qed.

(** C6, amended, at two runs that differ in the pattern, the minimum and
    the external errors only. *)
Lemma checks_depend_on_own_options_witness :
  Input.hasInternalError (input blanks true false None None [] [])
  = Input.hasInternalError
      (input blanks true false (Some (lit "abc")) (Some 1%float) [lit "Taken"] [])
  /\ Input.hasMaxLengthError (input blanks true false None None [] [])
     = Input.hasMaxLengthError
         (input blanks true false (Some (lit "abc")) (Some 1%float) [lit "Taken"] []).
Proof.
  destruct (checks_depend_on_own_options
              (input blanks true false None None [] [])
              (input blanks true false (Some (lit "abc")) (Some 1%float)
                 [lit "Taken"] []))
    as (Hrequired & _ & _ & HmaxLength & _); [reflexivity..|].
  split; [apply Hrequired | apply HmaxLength]; reflexivity.
Defined.

(** C7, as stated, fails: a caller that passes aria-invalid along gets its
    own value on the control, whatever the error list. And there are props
    for which no control is rendered at all: ValidatedInput given a value
    that cannot be converted to text, ValidatedTextarea given a number. *)
Lemma aria_invalid_overridden :
  own_get [(lit "aria-invalid", VBool false)] (lit "aria-invalid")
  = Some (VBool false)
  /\ forall E : Engine,
       (exists r,
          Input.ValidatedInput
            (input (VStr []) true false None None []
               [(lit "aria-invalid", VBool false)])
          = Normal r
          /\ messages r = [msg_required]
          /\ own_get (controlProps r) (lit "aria-invalid") = Some (VBool false))
       /\ Input.ValidatedInput (input opaque false false None None [] [])
          = Throw TypeError
       /\ Textarea.ValidatedTextarea (textarea (VNum 5%float) false [])
          = Throw TypeError.
Proof. split; [done|]. intros E. split; [by eexists | done]. Qed.

(** C7, amended, at a required empty input whose caller names
    aria-describedby, and at a textarea that passes a test id along. *)
Lemma aria_follows_errors_witness :
  (exists r,
     Input.ValidatedInput
       (input (VStr []) true false None None []
          [(lit "aria-describedby", VStr (lit "hint"))])
     = Normal r
     /\ messages r = [msg_required]
     /\ own_get (controlProps r) (lit "aria-invalid") = Some (VBool true))
  /\ exists r,
       Textarea.ValidatedTextarea
         (textarea VNull true [(lit "data-testid", VStr (lit "t"))])
       = Normal r
       /\ messages r = [msg_required]
       /\ own_get (controlProps r) (lit "aria-invalid") = Some (VBool true)
       /\ own_get (controlProps r) (lit "aria-describedby")
          = Some (VStr (lit "description-purpose-error")).
Proof.
  destruct aria_follows_errors as [Hinput Htextarea]. split.
  - destruct (Hinput (input (VStr []) true false None None []
                        [(lit "aria-describedby", VStr (lit "hint"))]) eq_refl)
      as (r & l & Hr & Hl & Hm & Ha & _).
    injection Hl as <-.
    exists r. split; [exact Hr|]. split; [exact Hm|]. by apply Ha.
  - destruct (Htextarea (textarea VNull true [(lit "data-testid", VStr (lit "t"))])
                eq_refl)
      as (r & l & Hr & Hl & Hm & Ha & Hd).
    injection Hl as <-.
    exists r. split; [exact Hr|]. split; [exact Hm|].
    split; [by apply Ha | by apply Hd].
Defined.

(** C10, as stated, fails: with internal validation skipped the required
    check does not flag a white-space-only value. *)
Lemma whitespace_not_flagged_when_skipped :
  isWhiteSpaceOnly (Input.value (input blanks true true None None [] [])) = true
  /\ Input.required (input blanks true true None None [] []) = true
  /\ forall E : Engine,
       Input.hasInternalError (input blanks true true None None [] [])
       = Normal false.
Proof. repeat split. Qed.

(** C10, amended, at a value of three spaces. *)
Lemma whitespace_only_witness :
  (Input.hasPatternError (input blanks true false (Some (lit "abc")) None [] [])
   = Normal false
   /\ Input.hasMinLengthError (input blanks true false (Some (lit "abc")) None [] [])
      = false
   /\ Input.hasMaxLengthError (input blanks true false (Some (lit "abc")) None [] [])
      = false
   /\ Input.hasInternalError (input blanks true false (Some (lit "abc")) None [] [])
      = Normal true)
  /\ exists r,
       Textarea.ValidatedTextarea (textarea blanks true []) = Normal r
       /\ messages r = [msg_required].
Proof.
  destruct whitespace_only_value as [Hinput Htextarea]. split.
  - apply (Hinput (input blanks true false (Some (lit "abc")) None [] []));
      reflexivity.
  - apply (Htextarea (textarea blanks true [])); reflexivity.
Defined.

(** White space in front of a minimum: the value reads as the number 0, so
    the range check fires next to the required check. *)
Example blank_value_below_minimum :
  exists r,
    Input.ValidatedInput (input blanks true false None (Some 1%float) [] [])
    = Normal r
    /\ messages r = [msg_required; lit "Minimum value is 1"].
Proof. by eexists. Qed.

(** A value that cannot be converted stops the input even when nothing is
    asked of it: no constraint, validation skipped. *)
Example opaque_value_throws :
  Input.ValidatedInput (input opaque false true None None [] []) = Throw TypeError
  /\ Input.hasInternalError (input opaque true false None None [] [])
     = Throw TypeError.
Proof. split; reflexivity. Qed.

(** An array is converted through its elements. *)
Example array_value_converted :
  ToString (VArr [VNum 1%float; VNull; VStr (lit "b")]) = Normal (lit "1,,b")
  /\ ToString (VArr [VNum 1%float; opaque]) = Throw TypeError.
Proof. split; reflexivity. Qed.

Import TermsOfUse.

(** C1, as stated, fails on an array that names a property twice: the
    lookup keeps the last value, and the first pair does not come back. *)
Lemma duplicate_names_do_not_round_trip :
  (forall E : Engine,
     customPropertiesLookup (doc (CArray twice))
     = Normal {| obj_proto := ObjectPrototype;
                 obj_own := [(lit "owner", VStr (lit "bob"))] |})
  /\ currentArray (CObject {| obj_proto := ObjectPrototype;
                              obj_own := [(lit "owner", VStr (lit "bob"))] |})
     = [entry "owner" "bob"]
  /\ pairOf (entry "owner" "ann") ∈ pairOf <$> twice
  /\ pairOf (entry "owner" "ann") ∉ pairOf <$> [entry "owner" "bob"].
Proof.
  split; [done|]. split; [done|]. split; [by left|].
  by intros [=]%list_elem_of_singleton.
Qed.

(** C1, amended, at three items of distinct names and at a keyed object. *)
Lemma custom_properties_round_trip_witness :
  (exists o,
     customPropertiesLookup (doc (CArray distinct)) = Normal o
     /\ Permutation (pairOf <$> currentArray (CObject o)) (pairOf <$> distinct))
  /\ customPropertiesLookup (doc (CArray (currentArray (CObject keyed))))
     = Normal keyed.
Proof.
  destruct custom_properties_round_trip as [Harray Hobject]. split.
  - apply Harray; [reflexivity | |].
    + repeat (constructor; [eexists; split; [reflexivity | discriminate]|]).
      constructor.
    + apply (bool_decide_unpack _). by vm_compute.
  - apply (Hobject (doc (CObject keyed))); reflexivity.
Defined.

(** C5, as stated, fails on the same array: the name of the first item
    maps to the value of the second. *)
Lemma duplicate_name_maps_to_last_value :
  entry "owner" "ann" ∈ twice
  /\ nameOf (entry "owner" "ann") = VStr (lit "owner")
  /\ (forall E : Engine,
        exists o,
          customPropertiesLookup (doc (CArray twice)) = Normal o
          /\ own_get (obj_own o) (lit "owner") = Some (VStr (lit "bob")))
  /\ Some (VStr (lit "bob")) <> Some (valueOf (entry "owner" "ann")).
Proof.
  split; [by left|]. split; [done|]. split; [|discriminate].
  intros E. by eexists.
Qed.

(** C5, amended, at the name that occurs twice. *)
Lemma customPropertiesLookup_witness :
  (exists o,
     customPropertiesLookup (doc (CArray twice)) = Normal o
     /\ own_get (obj_own o) (lit "owner") = Some (VStr (lit "bob")))
  /\ customPropertiesLookup (doc (CObject keyed)) = Normal keyed
  /\ customPropertiesLookup (doc CUndefined) = Normal emptyObject.
Proof.
  destruct customPropertiesLookup_last_wins as (Harray & Hobject & Habsent).
  split; [|split].
  - destruct (Harray (doc (CArray twice)) twice eq_refl) as (o & Ho & Hk).
    exists o. split; [exact Ho|]. rewrite Hk; [discriminate|]. reflexivity.
  - by apply Hobject.
  - apply Habsent. by left.
Defined.

(** C9 at a bag whose only entries carry the deleted name. *)
Lemma delete_last_witness :
  exists d',
    updateCustomProperty (lit "owner") VUndefined (doc (CArray twice)) = Normal d'
    /\ customProperties d' = CUndefined.
Proof.
  apply (delete_last_stores_undefined (doc (CArray twice)) (lit "owner")).
  reflexivity.
Defined.

(** A set on the sample bag replaces the first entry of the name. *)
Example update_replaces_first :
  exists d',
    updateCustomProperty (lit "owner") (VStr (lit "eve")) (doc (CArray twice))
    = Normal d'
    /\ customProperties d' = CArray [entry "owner" "eve"; entry "owner" "bob"].
Proof. by eexists. Qed.

(** An update of the keyed form stores the array form of its entries. *)
Example update_of_keyed_form :
  exists d',
    updateCustomProperty (lit "tier") (VStr (lit "gold")) (doc (CObject keyed))
    = Normal d'
    /\ customProperties d'
       = CArray [entry "7" "seven"; entry "owner" "ann"; entry "tier" "gold"].
Proof. by eexists. Qed.

(** An array that holds null cannot be updated: a delete reads every
    element, a set those in front of the entry it looks for. *)
Example null_element_stops_update :
  updateCustomProperty (lit "owner") VUndefined
    (doc (CArray [VNull; entry "owner" "ann"]))
  = Throw TypeError
  /\ updateCustomProperty (lit "owner") (VStr (lit "eve"))
       (doc (CArray [VNull; entry "owner" "ann"]))
     = Throw TypeError
  /\ exists d',
       updateCustomProperty (lit "owner") (VStr (lit "eve"))
         (doc (CArray [entry "owner" "ann"; VNull]))
       = Normal d'
       /\ customProperties d' = CArray [entry "owner" "eve"; VNull].
Proof. split; [done|]. split; [done|]. by eexists. Qed.

(** Why the round trip asks for names other than __proto__, and why it
    preserves the entries only up to their order. *)
Example proto_name_creates_no_entry :
  customPropertiesLookup (doc (CArray [entry "__proto__" "x"]))
  = Normal emptyObject.
Proof. reflexivity. Qed.

Example index_names_come_first :
  exists o,
    customPropertiesLookup (doc (CArray distinct)) = Normal o
    /\ currentArray (CObject o)
       = [entry "7" "seven"; entry "owner" "ann"; entry "tier" "gold"].
Proof. by eexists. Qed.

(** Why the round trip asks for names that are strings: the number 7 comes
    back as the text 7, and shares its key with the text. *)
Example number_name_comes_back_as_text :
  exists o,
    customPropertiesLookup (doc (CArray [seventh "a"; entry "7" "c"])) = Normal o
    /\ currentArray (CObject o) = [entry "7" "c"].
Proof. by eexists. Qed.

(** A name that cannot be converted stops the lookup; null, and an element
    without a name, are skipped. *)
Example lookup_of_odd_elements :
  customPropertiesLookup
    (doc (CArray [VObj [(lit "property", opaque); (lit "value", VNull)]]))
  = Throw TypeError
  /\ customPropertiesLookup
       (doc (CArray [VNull; VObj [(lit "value", VNull)]; VNum 1%float]))
     = Normal emptyObject.
Proof. split; reflexivity. Qed.

(** A truthy value that is not a string stops the textarea. *)
Example textarea_number_throws :
  Textarea.ValidatedTextarea (textarea (VNum 5%float) false []) = Throw TypeError.
Proof. reflexivity. Qed.

(** * Further properties of the sources *)

(** ** Strings *)

Lemma trimStart_idempotent s : trimStart (trimStart s) = trimStart s.
Proof.
  induction s as [|c s IH]; simpl; [done|].
  destruct (isWhiteSpace c) eqn:Hc; [done|]. simpl. by rewrite Hc.
Qed.

(** What [trimStart] returns is empty or starts with a visible unit. *)
Lemma trimStart_head s :
  match trimStart s with
  | [] => True
  | c :: _ => isWhiteSpace c = false
  end.
Proof.
  induction s as [|c s IH]; simpl; [done|].
  by destruct (isWhiteSpace c) eqn:Hc.
Qed.

Lemma trimStart_app_visible s c t :
  isWhiteSpace c = false ->
  exists u, trimStart (s ++ c :: t) = u ++ c :: t.
Proof.
  intros Hc. induction s as [|d s [u Hu]]; simpl.
  - rewrite Hc. by exists [].
  - destruct (isWhiteSpace d); [by exists u | by exists (d :: s)].
Qed.

Lemma trimStart_visible c t :
  isWhiteSpace c = false -> trimStart (c :: t) = c :: t.
Proof. intros Hc. simpl. by rewrite Hc. Qed.

Lemma trimEnd_idempotent s : trimEnd (trimEnd s) = trimEnd s.
Proof. unfold trimEnd. by rewrite rev_involutive trimStart_idempotent. Qed.

(** Trimming the end keeps a visible first unit in place. *)
Lemma trimEnd_visible c t :
  isWhiteSpace c = false -> exists u, trimEnd (c :: t) = c :: u.
Proof.
  intros Hc. unfold trimEnd. simpl.
  destruct (trimStart_app_visible (rev t) c [] Hc) as [u Hu].
  rewrite Hu rev_app_distr /=. by eexists.
Qed.

Lemma trim_idempotent s : trim (trim s) = trim s.
Proof.
  unfold trim. pose proof (trimStart_head s) as Hhead.
  destruct (trimStart s) as [|c t] eqn:Hs; [done|].
  destruct (trimEnd_visible c t Hhead) as [u Hu].
  rewrite Hu (trimStart_visible c u Hhead) -Hu.
  apply trimEnd_idempotent.
Qed.

(** ** More on the field components *)

Section FieldExtras.
Context `{Engine}.

Lemma skipped_checks p :
  Input.skipInternalValidation p = true ->
  Input.hasInternalError p = Normal false
  /\ Input.hasPatternError p = Normal false
  /\ Input.hasMinLengthError p = false
  /\ Input.hasMaxLengthError p = false
  /\ forall x, Input.numericValue p = Normal x ->
       Input.hasMinimumError p = Normal false
       /\ Input.hasMaximumError p = Normal false.
Proof.
  intros Hskip.
  unfold Input.hasInternalError, Input.hasPatternError, Input.hasMinLengthError,
    Input.hasMaxLengthError, Input.hasMinimumError, Input.hasMaximumError.
  rewrite Hskip /=. split; [done|]. split; [|split; [|split]].
  - by destruct (Input.pattern p), (Input.value p).
  - by destruct (Input.minLength p).
  - by destruct (Input.maxLength p).
  - intros x ->. simpl. by destruct (Input.minimum p), (Input.maximum p).
Qed.

(** With skipInternalValidation set, ValidatedInput shows the caller's
    externalErrors and nothing else, whatever the required flag, the
    pattern and the bounds, for every value that can be converted to text.
    The switch does not cover the conversion of the value to a number: a
    value that cannot be converted makes the render throw a TypeError all
    the same. *)
Theorem skipped_validation_shows_external_only (p : Input.props) :
  Input.skipInternalValidation p = true ->
  if stringifiable (Input.value p)
  then exists r,
         Input.ValidatedInput p = Normal r /\ messages r = Input.externalErrors p
  else Input.ValidatedInput p = Throw TypeError.
Proof.
  intros (Hint & Hpat & Hmin & Hmax & Hrange)%skipped_checks.
  destruct (stringifiable (Input.value p)) eqn:Hvalue;
    [|by apply ValidatedInput_throws].
  destruct (numericValue_returns p Hvalue) as [x Hx].
  destruct (Hrange x Hx) as [Hlo Hhi].
  destruct (ValidatedInput_returns p _
              (Input_errorMessages_eq p _ _ _ _ Hint Hpat Hlo Hhi))
    as (r & Hr & Hm & _).
  exists r. split; [done|]. by rewrite Hm Hmin Hmax.
Qed.

Lemma nonstring_checks p :
  isString (Input.value p) = false ->
  Input.hasPatternError p = Normal false
  /\ Input.hasMinLengthError p = false
  /\ Input.hasMaxLengthError p = false.
Proof.
  unfold Input.hasPatternError, Input.hasMinLengthError,
    Input.hasMaxLengthError, Input.trimmed.
  intros Hvalue.
  destruct (Input.value p); try done;
    (repeat split; by destruct (Input.pattern p), (Input.minLength p),
       (Input.maxLength p); rewrite /= ?andb_false_r).
Qed.

(** In ValidatedInput the required check and the pattern and length checks
    exclude each other: when the required check fires, none of the three
    does, for a value of any type. *)
Theorem required_excludes_pattern_and_length (p : Input.props) :
  Input.hasInternalError p = Normal true ->
  Input.hasPatternError p = Normal false
  /\ Input.hasMinLengthError p = false
  /\ Input.hasMaxLengthError p = false.
Proof.
  intros Hreq.
  destruct (isString (Input.value p)) eqn:Hstring;
    [|by apply nonstring_checks].
  revert Hreq.
  unfold Input.hasInternalError, Input.hasPatternError, Input.hasMinLengthError,
    Input.hasMaxLengthError, Input.trimmed.
  destruct (Input.value p) as [| |b|x|s|elems|props]; try done.
  destruct (negb (Input.skipInternalValidation p) && Input.required p); [|done].
  intros Hempty.
  assert (isEmptyString (if truthy (VStr s) then trim s else []) = true
          /\ negb (isEmptyString s) && negb (isEmptyString (trim s)) = false)
    as [Htrimmed Hpattern].
  { destruct s as [|c s]; [done|]. simpl in *. injection Hempty as ->. done. }
  rewrite Htrimmed. repeat split.
  - destruct (Input.pattern p); [|done].
    by rewrite -!andb_assoc Hpattern !andb_false_r.
  - destruct (Input.minLength p); [|done]. by rewrite /= andb_false_r.
  - destruct (Input.maxLength p); [|done]. by rewrite /= andb_false_r.
Qed.

(** A value that is not a string (a number, a boolean, an array, an
    object) is never matched against the pattern nor measured: when it can
    be converted to text, ValidatedInput shows for it only the required and
    range messages and the external errors; when it cannot, the render
    throws a TypeError. *)
Theorem nonstring_value_required_and_range_only (p : Input.props) :
  isString (Input.value p) = false ->
  Input.hasPatternError p = Normal false
  /\ Input.hasMinLengthError p = false
  /\ Input.hasMaxLengthError p = false
  /\ if stringifiable (Input.value p)
     then exists r req lo hi,
            Input.hasInternalError p = Normal req
            /\ Input.hasMinimumError p = Normal lo
            /\ Input.hasMaximumError p = Normal hi
            /\ Input.ValidatedInput p = Normal r
            /\ messages r
               = when req msg_required
                 ++ when lo (Input.msg_minimum p)
                 ++ when hi (Input.msg_maximum p)
                 ++ Input.externalErrors p
     else Input.ValidatedInput p = Throw TypeError.
Proof.
  intros (Hpat & Hmin & Hmax)%nonstring_checks.
  split; [done|]. split; [done|]. split; [done|].
  destruct (stringifiable (Input.value p)) eqn:Hvalue;
    [|by apply ValidatedInput_throws].
  destruct (checks_return p Hvalue)
    as (req & pat & lo & hi & Hreq & Hpat' & Hlo & Hhi).
  destruct (ValidatedInput_returns p _
              (Input_errorMessages_eq p _ _ _ _ Hreq Hpat Hlo Hhi))
    as (r & Hr & Hm & _).
  exists r, req, lo, hi. repeat (split; [done|]). by rewrite Hm Hmin Hmax.
Qed.

Lemma imap_keys (f : nat -> jsstring -> paragraph) (l : list jsstring) n :
  (forall idx message, p_key (f idx message) = (n + idx)%nat) ->
  List.map p_key (imap f l) = seq n (length l).
Proof.
  revert f n. induction l as [|m l IH]; intros f n Hf; simpl; [done|].
  rewrite Hf Nat.add_0_r. f_equal. apply IH.
  intros idx message. simpl. rewrite Hf. lia.
Qed.

Lemma renderErrors_keys name (l : list jsstring) :
  List.map p_key (renderErrors name (nonEmpty l) l) = seq 0 (length l).
Proof.
  destruct l as [|m l]; [done|]. unfold renderErrors, nonEmpty.
  by apply imap_keys.
Qed.

Lemma renderErrors_ids name hasError (l : list jsstring) :
  Forall (fun para => p_id para = name ++ lit "-error")
    (renderErrors name hasError l).
Proof.
  unfold renderErrors. destruct hasError; [|constructor].
  apply Forall_forall. intros para (idx & message & -> & _)%elem_of_lookup_imap.
  reflexivity.
Qed.

Lemma renderErrors_nonEmpty name (l : list jsstring) :
  nonEmpty (renderErrors name (nonEmpty l) l) = nonEmpty l.
Proof. by destruct l. Qed.

Lemma ValidatedInput_inv p r :
  Input.ValidatedInput p = Normal r ->
  exists l,
    Input.errorMessages p = Normal l
    /\ errorParagraphs r = renderErrors (Input.name p) (nonEmpty l) l.
Proof.
  unfold Input.ValidatedInput.
  destruct (Input.errorMessages p) as [l|e]; [|done].
  intros [= <-]. by exists l.
Qed.

Lemma ValidatedTextarea_inv q r :
  Textarea.ValidatedTextarea q = Normal r ->
  exists l,
    Textarea.errorMessages q = Normal l
    /\ errorParagraphs r = renderErrors (Textarea.name q) (nonEmpty l) l.
Proof.
  unfold Textarea.ValidatedTextarea.
  destruct (Textarea.errorMessages q) as [l|e]; [|done].
  intros [= <-]. by exists l.
Qed.

(** In both components every error paragraph carries the id that
    aria-describedby names, the keys of the paragraphs are their positions,
    and, unless the pass-through props name aria-describedby, the control
    points at that id exactly when there is a paragraph to point at. *)
Theorem error_paragraphs_match_describedby :
  (forall (p : Input.props) r,
     Input.ValidatedInput p = Normal r ->
     Forall (fun para => p_id para = Input.name p ++ lit "-error")
       (errorParagraphs r)
     /\ List.map p_key (errorParagraphs r) = seq 0 (length (messages r))
     /\ (own_has (Input.rest p) (lit "aria-describedby") = false ->
         own_get (controlProps r) (lit "aria-describedby")
         = Some (if nonEmpty (errorParagraphs r)
                 then VStr (Input.name p ++ lit "-error") else VUndefined)))
  /\ (forall (q : Textarea.props) r,
        Textarea.ValidatedTextarea q = Normal r ->
        Forall (fun para => p_id para = Textarea.name q ++ lit "-error")
          (errorParagraphs r)
        /\ List.map p_key (errorParagraphs r) = seq 0 (length (messages r))
        /\ (own_has (Textarea.rest q) (lit "aria-describedby") = false ->
            own_get (controlProps r) (lit "aria-describedby")
            = Some (if nonEmpty (errorParagraphs r)
                    then VStr (Textarea.name q ++ lit "-error") else VUndefined))).
Proof.
  split.
  - intros p r Hr. destruct (ValidatedInput_inv p r Hr) as (l & Hl & Hparas).
    destruct (ValidatedInput_returns p l Hl) as (r' & Hr' & Hm & _ & Hd).
    rewrite Hr in Hr'. injection Hr' as <-.
    rewrite Hparas Hm. split; [apply renderErrors_ids|].
    split; [apply renderErrors_keys|].
    rewrite renderErrors_nonEmpty. apply Hd.
  - intros q r Hr. destruct (ValidatedTextarea_inv q r Hr) as (l & Hl & Hparas).
    destruct (ValidatedTextarea_returns q l Hl) as (r' & Hr' & Hm & _ & Hd).
    rewrite Hr in Hr'. injection Hr' as <-.
    rewrite Hparas Hm. split; [apply renderErrors_ids|].
    split; [apply renderErrors_keys|].
    rewrite renderErrors_nonEmpty. apply Hd.
Qed.

(** ValidatedTextarea renders exactly for the values that are strings or
    falsy; a truthy value of another type (a number, [true], an array, an
    object) makes the render throw a TypeError. *)
Theorem textarea_renders_text_only (q : Textarea.props) :
  if isTextOrFalsy (Textarea.value q)
  then exists r, Textarea.ValidatedTextarea q = Normal r
  else Textarea.ValidatedTextarea q = Throw TypeError.
Proof.
  rewrite -strValue_text.
  destruct (isString (Textarea.strValue q)) eqn:Hstr.
  - destruct (Textarea_errorMessages_returns q Hstr) as [l Hl].
    destruct (ValidatedTextarea_returns q l Hl) as (r & Hr & _). by exists r.
  - unfold Textarea.ValidatedTextarea, Textarea.errorMessages, Textarea.trimmed.
    by destruct (Textarea.strValue q).
Qed.

(** The list the textarea fills, once the text it measures is known. *)
Lemma Textarea_errorMessages_eq q s :
  Textarea.strValue q = VStr s ->
  Textarea.errorMessages q
  = Normal
      (when (Textarea.required q && isEmptyString (trim s)) msg_required
       ++ match Textarea.minLength q with
          | Some m =>
              when (negb (isEmptyString (trim s))
                    && PrimFloat.ltb (length_number (trim s)) m)
                (Textarea.msg_minLength m (trim s))
          | None => []
          end
       ++ match Textarea.maxLength q with
          | Some m =>
              when (negb (isEmptyString (trim s))
                    && PrimFloat.ltb m (length_number (trim s)))
                (Textarea.msg_maxLength m (trim s))
          | None => []
          end).
Proof.
  intros Hs. unfold Textarea.errorMessages, Textarea.trimmed. rewrite Hs /=.
  f_equal. unfold push, when.
  destruct (Textarea.required q && isEmptyString (trim s)),
    (Textarea.minLength q) as [m|], (Textarea.maxLength q) as [m'|]; simpl;
    repeat case_condition; reflexivity.
Qed.

Lemma length_message_not_required m t :
  Textarea.msg_minLength m t <> msg_required
  /\ Textarea.msg_maxLength m t <> msg_required.
Proof. split; discriminate. Qed.

(** In ValidatedTextarea the required message never stands beside a length
    message: when it is shown, it is the only one. *)
Theorem textarea_required_message_alone (q : Textarea.props) r :
  Textarea.ValidatedTextarea q = Normal r ->
  msg_required ∈ messages r ->
  messages r = [msg_required].
Proof.
  intros Hr. destruct (ValidatedTextarea_inv q r Hr) as (l & Hl & _).
  destruct (ValidatedTextarea_returns q l Hl) as (r' & Hr' & Hm & _).
  rewrite Hr in Hr'. injection Hr' as <-. rewrite Hm. clear Hm Hr.
  destruct (Textarea.strValue q) as [| | | |s| |] eqn:Hs;
    try (unfold Textarea.errorMessages, Textarea.trimmed in Hl;
         by rewrite Hs in Hl).
  rewrite (Textarea_errorMessages_eq q s Hs) in Hl. injection Hl as <-.
  destruct (isEmptyString (trim s)); rewrite ?andb_true_r ?andb_false_r /=.
  - destruct (Textarea.minLength q), (Textarea.maxLength q);
      rewrite /= ?app_nil_r; destruct (Textarea.required q); simpl; try done;
      by intros ?%elem_of_nil.
  - intros Hin. exfalso.
    destruct (Textarea.minLength q) as [m|], (Textarea.maxLength q) as [m'|];
      simpl in Hin; unfold when in Hin;
      repeat match goal with
             | Hx : context [if ?c then _ else _] |- _ => destruct c
             end;
      simpl in Hin;
      repeat match goal with
             | Hx : _ ∈ [] |- _ => by apply elem_of_nil in Hx
             | Hx : _ ∈ _ :: _ |- _ => apply elem_of_cons in Hx as [Hx|Hx]
             | Hx : msg_required = _ |- _ => discriminate Hx
             end.
Qed.

Lemma text_stringifiable v : isTextOrFalsy v = true -> stringifiable v = true.
Proof. by destruct v. Qed.

Lemma text_strValue q :
  isTextOrFalsy (Textarea.value q) = true ->
  exists s,
    Textarea.strValue q = VStr s
    /\ Input.hasInternalError (asInput q)
       = Normal (Textarea.required q && isEmptyString (trim s))
    /\ Input.trimmed (asInput q) = trim s.
Proof.
  unfold isTextOrFalsy, Textarea.strValue, Input.trimmed, Input.hasInternalError.
  simpl. destruct (Textarea.required q);
    destruct (Textarea.value q) as [| |b|x|s| |]; simpl; try done;
    try (intros _; by exists []).
  all: try (destruct b; [done|]; intros _; by exists []).
  all: try (destruct (PrimFloat.eqb x 0 || PrimFloat.is_nan x); [|done];
            intros _; by exists []).
  all: intros _; destruct s as [|c s]; [by exists []|]; by exists (c :: s).
Qed.

(** The textarea follows the input: given a value that is a string or
    falsy, ValidatedTextarea shows the very messages ValidatedInput shows
    for the same name, value, required flag and length bounds when it is
    given no pattern, no range, no external errors and no skip switch. *)
Theorem textarea_agrees_with_input (q : Textarea.props) :
  isTextOrFalsy (Textarea.value q) = true ->
  exists rq rp,
    Textarea.ValidatedTextarea q = Normal rq
    /\ Input.ValidatedInput (asInput q) = Normal rp
    /\ messages rp = messages rq.
Proof.
  intros Htext.
  destruct (text_strValue q Htext) as (s & Hs & Hreq & Htrimmed).
  destruct (ValidatedTextarea_returns q _ (Textarea_errorMessages_eq q s Hs))
    as (rq & Hrq & Hmq & _).
  assert (Input.hasPatternError (asInput q) = Normal false) as Hpat by done.
  destruct (numericValue_returns (asInput q) (text_stringifiable _ Htext))
    as [x Hx].
  destruct (range_checks_eq (asInput q) x Hx) as [Hlo Hhi].
  destruct (ValidatedInput_returns _ _
              (Input_errorMessages_eq (asInput q) _ _ _ _ Hreq Hpat Hlo Hhi))
    as (rp & Hrp & Hmp & _).
  exists rq, rp. split; [done|]. split; [done|]. rewrite Hmp Hmq.
  unfold Input.hasMinLengthError, Input.hasMaxLengthError,
    Input.msg_minLength, Input.msg_maxLength.
  rewrite Htrimmed. simpl. rewrite app_nil_r.
  by destruct (Textarea.minLength q), (Textarea.maxLength q).
Qed.

Lemma trim_visible_nonempty s : trim s <> [] -> s <> [].
Proof. by intros Hs ->. Qed.

(** Surrounding white space does not count: for a string with visible
    text, the required, length and range checks and the length messages
    are those of the trimmed string; when the pattern check, which tests
    the string as typed, agrees too, so does the whole list of messages. *)
Theorem surrounding_whitespace_ignored (p : Input.props) s :
  Input.value p = VStr s ->
  trim s <> [] ->
  Input.hasInternalError (withValue p (VStr (trim s))) = Input.hasInternalError p
  /\ Input.hasMinLengthError (withValue p (VStr (trim s)))
     = Input.hasMinLengthError p
  /\ Input.hasMaxLengthError (withValue p (VStr (trim s)))
     = Input.hasMaxLengthError p
  /\ Input.hasMinimumError (withValue p (VStr (trim s)))
     = Input.hasMinimumError p
  /\ Input.hasMaximumError (withValue p (VStr (trim s)))
     = Input.hasMaximumError p
  /\ (Input.hasPatternError (withValue p (VStr (trim s)))
      = Input.hasPatternError p ->
      Input.errorMessages (withValue p (VStr (trim s))) = Input.errorMessages p).
Proof.
  intros Hvalue Hvisible.
  pose proof (trim_visible_nonempty s Hvisible) as Hs.
  assert (Input.trimmed (withValue p (VStr (trim s))) = Input.trimmed p)
    as Htrimmed.
  { unfold Input.trimmed. rewrite Hvalue /=.
    destruct (trim s) eqn:Ht; [done|]. destruct s; [done|].
    by rewrite /= -Ht trim_idempotent. }
  assert (Input.numericValue (withValue p (VStr (trim s)))
          = Input.numericValue p) as Hnumeric.
  { unfold Input.numericValue. rewrite Hvalue /=.
    destruct (trim s) eqn:Ht; [done|]. destruct s; [done|].
    by rewrite /= /StringToNumber -Ht trim_idempotent. }
  assert (Input.hasInternalError (withValue p (VStr (trim s)))
          = Input.hasInternalError p) as Hint.
  { unfold Input.hasInternalError. rewrite Hvalue /= trim_idempotent.
    destruct (trim s) eqn:Ht; [done|]. by destruct s. }
  assert (Input.hasMinLengthError (withValue p (VStr (trim s)))
          = Input.hasMinLengthError p) as Hmin.
  { unfold Input.hasMinLengthError. by rewrite Htrimmed. }
  assert (Input.hasMaxLengthError (withValue p (VStr (trim s)))
          = Input.hasMaxLengthError p) as Hmax.
  { unfold Input.hasMaxLengthError. by rewrite Htrimmed. }
  assert (Input.hasMinimumError (withValue p (VStr (trim s)))
          = Input.hasMinimumError p) as Hlo.
  { unfold Input.hasMinimumError. by rewrite Hnumeric. }
  assert (Input.hasMaximumError (withValue p (VStr (trim s)))
          = Input.hasMaximumError p) as Hhi.
  { unfold Input.hasMaximumError. by rewrite Hnumeric. }
  repeat split; try done.
  intros Hpat. unfold Input.errorMessages.
  rewrite Hpat Hint Hmin Hmax Hlo Hhi.
  unfold Input.msg_minLength, Input.msg_maxLength. by rewrite Htrimmed.
Qed.

End FieldExtras.

(** ** More on the custom-properties bag *)

Section StoreExtras.
Context `{Engine}.
Import TermsOfUse.

Lemma undefined_or_not (v : jsval) : v = VUndefined \/ v <> VUndefined.
Proof. destruct v; by [left | right]. Qed.

Lemma setYamlValue_twice a b d :
  setYamlValue customPropertiesPath a (setYamlValue customPropertiesPath b d)
  = setYamlValue customPropertiesPath a d.
Proof. reflexivity. Qed.

Lemma visited_delete prop (items : list jsval) :
  visited prop VUndefined items = items.
Proof. reflexivity. Qed.

Lemma visited_set prop val (items : list jsval) :
  val <> VUndefined ->
  visited prop val items
  = match list_find (fun item => hasName prop item) items with
    | Some (existingIndex, _) => take existingIndex items
    | None => items
    end.
Proof. by destruct val. Qed.

Lemma update_delete prop d :
  updateCustomProperty prop VUndefined d
  = if existsb isNullish (entries (customProperties d))
    then Throw TypeError
    else Normal (setYamlValue customPropertiesPath
                   (stored (others prop (entries (customProperties d)))) d).
Proof. by rewrite update_eq. Qed.

Lemma update_set prop val d :
  val <> VUndefined ->
  updateCustomProperty prop val d
  = if existsb isNullish (visited prop val (entries (customProperties d)))
    then Throw TypeError
    else Normal (setYamlValue customPropertiesPath
                   (CArray (withEntry prop val (entries (customProperties d)))) d).
Proof. intros Hval. rewrite update_eq. by destruct val. Qed.



Lemma others_not_nullish prop (items : list jsval) :
  existsb isNullish items = false ->
  existsb isNullish (others prop items) = false.
Proof.
  unfold others. induction items as [|it items IH]; simpl; [done|].
  intros [Hit Hitems]%orb_false_elim.
  destruct (negb (hasName prop it)); simpl; rewrite ?Hit; by apply IH.
Qed.

Lemma withEntry_nonempty prop val items : withEntry prop val items <> [].
Proof.
  unfold withEntry. destruct (list_find _ _) as [[i it]|] eqn:Hfind.
  - apply list_find_Some in Hfind as (Hi & _).
    intros Hnil. apply (f_equal length) in Hnil.
    rewrite length_insert in Hnil. apply lookup_lt_Some in Hi. simpl in Hnil. lia.
  - by destruct items.
Qed.

Lemma hasName_new prop val :
  hasName prop (VObj [(lit "property", VStr prop); (lit "value", val)]) = true.
Proof. unfold hasName. simpl. apply same_key_refl. Qed.

(** In the array a set stores, the first entry of the name is the new
    one, and the elements in front of it are those the set has read. *)
Lemma withEntry_find prop val items :
  exists i,
    list_find (fun item => hasName prop item) (withEntry prop val items)
    = Some (i, VObj [(lit "property", VStr prop); (lit "value", val)])
    /\ <[i := VObj [(lit "property", VStr prop); (lit "value", val)]]>
         (withEntry prop val items)
       = withEntry prop val items
    /\ take i (withEntry prop val items)
       = match list_find (fun item => hasName prop item) items with
         | Some (existingIndex, _) => take existingIndex items
         | None => items
         end.
Proof.
  unfold withEntry. destruct (list_find _ items) as [[i it]|] eqn:Hfind.
  - exists i. apply list_find_Some in Hfind as (Hi & Hit & Hbefore).
    split; [|split; [by rewrite list_insert_insert_eq|]].
    + apply list_find_Some. split; [|split].
      * apply list_lookup_insert_eq. by eapply lookup_lt_Some.
      * by rewrite hasName_new.
      * intros j y Hj Hlt. rewrite list_lookup_insert_ne in Hj; [lia|].
        by eapply Hbefore.
    + by rewrite take_insert_ge.
  - exists (length items). split; [|split].
    + rewrite list_find_app_r // /=. by rewrite hasName_new.
    + rewrite insert_app_r_alt // Nat.sub_diag //.
    + by rewrite take_app_length.
Qed.

(** updateCustomProperty leaves the array form behind, and never an empty
    array: a set stores a non-empty array, a delete a non-empty array or
    undefined. It returns unless one of the elements it reads the name of
    is null or undefined; it then throws a TypeError, and nothing is
    stored. *)
Theorem update_stores_array_form (prop : jsstring) (val : jsval)
    (d : description) :
  match updateCustomProperty prop val d with
  | Normal d' =>
      existsb isNullish (visited prop val (entries (customProperties d))) = false
      /\ ((exists items,
             items <> [] /\ customProperties d' = CArray items)
          \/ (val = VUndefined /\ customProperties d' = CUndefined))
  | Throw e =>
      e = TypeError
      /\ existsb isNullish (visited prop val (entries (customProperties d)))
         = true
  end.
Proof.
  rewrite update_eq. destruct (existsb isNullish _); [done|].
  split; [done|]. rewrite customProperties_setYamlValue.
  destruct (undefined_or_not val) as [->|Hval].
  - destruct (others _ _) as [|it l]; [by right|].
    left. by exists (it :: l).
  - left. exists (withEntry prop val (entries (customProperties d))).
    split; [apply withEntry_nonempty | by destruct val].
Qed.

Lemma delete_twice prop d :
  updateCustomProperty prop VUndefined d
  ≫= updateCustomProperty prop VUndefined
  = updateCustomProperty prop VUndefined d.
Proof.
  rewrite update_delete.
  destruct (existsb isNullish (entries (customProperties d))) eqn:Hnull; [done|].
  rewrite bind_Normal update_delete customProperties_setYamlValue entries_stored.
  by rewrite (others_not_nullish prop _ Hnull) others_twice setYamlValue_twice.
Qed.

(** updateCustomProperty is idempotent: the same set, or the same delete,
    applied a second time changes nothing, and a call that throws is not
    followed by a second one. *)
Theorem update_idempotent (prop : jsstring) (val : jsval) (d : description) :
  updateCustomProperty prop val d ≫= updateCustomProperty prop val
  = updateCustomProperty prop val d.
Proof.
  destruct (undefined_or_not val) as [->|Hval]; [apply delete_twice|].
  rewrite (update_set prop val d) //.
  destruct (existsb isNullish _) eqn:Hnull; [done|].
  rewrite bind_Normal update_set // customProperties_setYamlValue.
  cbn [entries]. rewrite visited_set // in Hnull. rewrite visited_set //.
  destruct (withEntry_find prop val (entries (customProperties d)))
    as (i & Hfind & Hsame & Htake).
  rewrite Hfind Htake Hnull setYamlValue_twice.
  unfold withEntry at 1. by rewrite Hfind Hsame.
Qed.






(** *** The lookup after an update *)

Lemma own_has_keys (l : properties) k : own_has l k = false <-> k ∉ fst <$> l.
Proof.
  unfold own_has. induction l as [|[k0 v0] l IH]; simpl.
  - split; [intros _; apply not_elem_of_nil | done].
  - rewrite not_elem_of_cons. destruct (same_key k0 k) eqn:Hk.
    + apply same_key_eq in Hk as ->. split; [done | by intros [? _]].
    + apply same_key_ne in Hk. rewrite IH. split; [by split | by intros [_ ?]].
Qed.

Lemma own_update_keys (l : properties) k v :
  fst <$> own_update l k v = fst <$> l.
Proof.
  induction l as [|[k0 v0] l IH]; simpl; [done|].
  destruct (same_key k0 k); simpl; [done | by f_equal].
Qed.

Lemma defineOwn_keys_NoDup (l : properties) k v :
  NoDup (fst <$> l) -> NoDup (fst <$> defineOwn l k v).
Proof.
  intros Hl. unfold defineOwn. destruct (own_has l k) eqn:Hk.
  - by rewrite own_update_keys.
  - assert (Permutation (fst <$> match array_index k with
                                 | Some n => insert_index n k v l
                                 | None => l ++ [(k, v)]
                                 end) (k :: (fst <$> l))) as ->.
    { change (k :: (fst <$> l)) with (fst <$> (k, v) :: l).
      apply fmap_Permutation.
      pose proof (defineOwn_fresh_perm l k v Hk) as Hperm.
      unfold defineOwn in Hperm. by rewrite Hk in Hperm. }
    apply NoDup_cons. split; [by apply own_has_keys | done].
Qed.

Lemma setProp_keys_NoDup o k v :
  NoDup (fst <$> obj_own o) -> NoDup (fst <$> obj_own (setProp o k v)).
Proof.
  intros Ho. unfold setProp. destruct (own_has (obj_own o) k).
  - simpl. by rewrite own_update_keys.
  - destruct (same_key k proto_key && reaches_proto_accessor (obj_proto o)).
    + unfold set_proto. by destruct v.
    + by apply defineOwn_keys_NoDup.
Qed.

Lemma assign_keys_NoDup items acc :
  NoDup (fst <$> obj_own acc) ->
  NoDup (fst <$> obj_own (fold_left assign items acc)).
Proof.
  revert acc. induction items as [|it items IH]; intros acc Hacc; simpl; [done|].
  apply IH. unfold assign. destruct (keyOf it); [|done].
  by apply setProp_keys_NoDup.
Qed.

(** The lookup names each key once. *)
Lemma lookup_keys_NoDup d o :
  distinctKeys d ->
  customPropertiesLookup d = Normal o ->
  NoDup (fst <$> obj_own o).
Proof.
  unfold distinctKeys, customPropertiesLookup.
  destruct (customProperties d) as [| |items|o']; simpl;
    try (intros _ [= <-]; apply NoDup_nil_2); [|by intros ? [= <-]].
  intros _. destruct (forallb nameable items) eqn:Hitems.
  - rewrite reduce_nameable //. intros [= <-].
    apply assign_keys_NoDup, NoDup_nil_2.
  - by rewrite reduce_throws.
Qed.

Lemma filter_key_none k (items : list jsval) :
  (forall it, it ∈ items -> keyOf it <> Some k) ->
  filter (fun it => keyOf it = Some k) items = [].
Proof.
  induction items as [|it items IH]; intros Hnone; [done|].
  rewrite filter_cons decide_False; [apply Hnone; by left|].
  apply IH. intros it' Hin. apply Hnone. by right.
Qed.

Lemma own_get_entries (l : properties) k :
  NoDup (fst <$> l) ->
  own_get l k
  = valueOf <$> last (filter (fun it => keyOf it = Some k)
                        (List.map entry_item l)).
Proof.
  induction l as [|[k0 v0] l IH]; simpl; [done|].
  intros [Hk0 Hl]%NoDup_cons. rewrite filter_cons.
  change (keyOf (entry_item (k0, v0))) with (Some k0).
  destruct (same_key k0 k) eqn:Hk.
  - apply same_key_eq in Hk as ->. rewrite decide_True //.
    assert (filter (fun it => keyOf it = Some k) (List.map entry_item l) = [])
      as ->; [|done].
    apply filter_key_none.
    intros it [[k1 v1] [-> Hin]]%list_elem_of_fmap [= ->]. simpl in *.
    apply Hk0. by apply (list_elem_of_fmap_2 fst _ (k, v1)).
  - apply same_key_ne in Hk. rewrite decide_False; [congruence|]. by apply IH.
Qed.

Lemma entries_of_object o : entries (CObject o) = List.map entry_item (obj_own o).
Proof. reflexivity. Qed.

(** The lookup reads the array view of what is stored: it returns when
    every name can be converted, and the last entry filed under a key gives
    its value. *)
Lemma lookup_reads_array d :
  distinctKeys d ->
  if forallb nameable (entries (customProperties d))
  then exists o,
         customPropertiesLookup d = Normal o
         /\ forall k,
              k <> proto_key ->
              own_get (obj_own o) k
              = valueOf <$> last (filter (fun it => keyOf it = Some k)
                                    (entries (customProperties d)))
  else customPropertiesLookup d = Throw TypeError.
Proof.
  unfold distinctKeys, customPropertiesLookup.
  destruct (customProperties d) as [| |items|o].
  - intros _. simpl. by eexists.
  - intros _. simpl. by eexists.
  - intros _. cbn [entries]. destruct (forallb nameable items) eqn:Hitems.
    + rewrite reduce_nameable //. eexists. split; [done|].
      intros k Hk. rewrite lookup_fold; [done|]. by destruct (last _).
    + by rewrite reduce_throws.
  - intros Ho. rewrite entries_of_object entries_nameable.
    eexists. split; [done|]. intros k _. by apply own_get_entries.
Qed.

Lemma others_nameable prop (items : list jsval) :
  forallb nameable (others prop items) = forallb nameable items.
Proof.
  unfold others. induction items as [|it items IH]; simpl; [done|].
  destruct (hasName prop it) eqn:Hit; simpl; [|by rewrite IH].
  rewrite IH. unfold hasName in Hit.
  destruct (textName it) as [k|] eqn:Hk; [|done].
  by rewrite (textName_nameable it k Hk).
Qed.

Lemma hasName_nameable prop it : hasName prop it = true -> nameable it = true.
Proof.
  unfold hasName. destruct (textName it) as [k|] eqn:Hk; [|done].
  intros _. by apply (textName_nameable it k).
Qed.

Lemma withEntry_nameable prop val (items : list jsval) :
  forallb nameable (withEntry prop val items) = forallb nameable items.
Proof.
  unfold withEntry. destruct (list_find _ items) as [[i it]|] eqn:Hfind.
  - apply list_find_Some in Hfind as (Hi & Hit & _).
    rewrite -{2}(take_drop_middle items i it Hi).
    rewrite insert_take_drop; [by eapply lookup_lt_Some|].
    rewrite !forallb_app /=.
    apply Is_true_true in Hit. by rewrite (hasName_nameable _ _ Hit).
  - by rewrite forallb_app /= andb_true_r.
Qed.

Lemma filter_key_others prop k (items : list jsval) :
  k <> prop ->
  filter (fun it => keyOf it = Some k) (others prop items)
  = filter (fun it => keyOf it = Some k) items.
Proof.
  intros Hk. unfold others. induction items as [|it items IH]; [done|].
  simpl. destruct (hasName prop it) eqn:Hit; simpl.
  - rewrite IH filter_cons decide_False //.
    rewrite (hasName_keyOf _ _ Hit). congruence.
  - by rewrite !filter_cons IH.
Qed.

Lemma keyOf_new prop val :
  keyOf (VObj [(lit "property", VStr prop); (lit "value", val)]) = Some prop.
Proof. reflexivity. Qed.

Lemma filter_key_withEntry prop val k (items : list jsval) :
  k <> prop ->
  filter (fun it => keyOf it = Some k) (withEntry prop val items)
  = filter (fun it => keyOf it = Some k) items.
Proof.
  intros Hk. unfold withEntry.
  destruct (list_find _ items) as [[i it]|] eqn:Hfind.
  - apply list_find_Some in Hfind as (Hi & Hit & _).
    apply Is_true_true, hasName_keyOf in Hit.
    rewrite -{2}(take_drop_middle items i it Hi).
    rewrite insert_take_drop; [by eapply lookup_lt_Some|].
    rewrite !filter_app !filter_cons keyOf_new Hit.
    rewrite !decide_False //; congruence.
  - rewrite filter_app filter_cons keyOf_new decide_False; [congruence|].
    by rewrite filter_nil app_nil_r.
Qed.

(** What an update that returns has stored. *)
Lemma update_inv prop val d d' :
  updateCustomProperty prop val d = Normal d' ->
  existsb isNullish (visited prop val (entries (customProperties d))) = false
  /\ distinctKeys d'
  /\ ((val = VUndefined
       /\ entries (customProperties d')
          = others prop (entries (customProperties d)))
      \/ (val <> VUndefined
          /\ entries (customProperties d')
             = withEntry prop val (entries (customProperties d)))).
Proof.
  rewrite update_eq. destruct (existsb isNullish _); [done|].
  intros [= <-]. split; [done|]. unfold distinctKeys.
  rewrite customProperties_setYamlValue.
  destruct (undefined_or_not val) as [->|Hval].
  - split; [by destruct (others _ _)|]. left. by rewrite entries_stored.
  - split; [by destruct val|]. right. split; [done|]. by destruct val.
Qed.

(** An update of one name is invisible through the lookup at every other
    key (the accessor name __proto__ apart): the lookup returns after the
    update exactly when it returned before, with the same value under the
    key. *)
Theorem update_keeps_other_lookups (prop k : jsstring) (val : jsval)
    (d d' : description) :
  distinctKeys d ->
  k <> prop ->
  k <> proto_key ->
  updateCustomProperty prop val d = Normal d' ->
  match customPropertiesLookup d, customPropertiesLookup d' with
  | Normal o, Normal o' => own_get (obj_own o') k = own_get (obj_own o) k
  | Throw e, Throw e' => e = e'
  | _, _ => False
  end.
Proof.
  intros Hd Hk Hproto (_ & Hd' & Hstored)%update_inv.
  pose proof (lookup_reads_array d Hd) as Hbefore.
  pose proof (lookup_reads_array d' Hd') as Hafter.
  assert (forallb nameable (entries (customProperties d'))
          = forallb nameable (entries (customProperties d))
          /\ filter (fun it => keyOf it = Some k) (entries (customProperties d'))
             = filter (fun it => keyOf it = Some k) (entries (customProperties d)))
    as [Hnameable Hfilter].
  { destruct Hstored as [[_ ->]|[_ ->]].
    - by rewrite others_nameable filter_key_others.
    - by rewrite withEntry_nameable filter_key_withEntry. }
  rewrite Hnameable in Hafter.
  destruct (forallb nameable (entries (customProperties d))).
  - destruct Hbefore as (o & -> & Ho). destruct Hafter as (o' & -> & Ho').
    by rewrite Ho // Ho' // Hfilter.
  - by rewrite Hbefore Hafter.
Qed.





(** *** The context of the conditions *)

Lemma own_get_spread_distinct (l base : properties) k :
  NoDup (fst <$> l) ->
  own_get (fold_left (fun acc e => defineOwn acc (fst e) (snd e)) l base) k
  = match own_get l k with
    | Some v => Some v
    | None => own_get base k
    end.
Proof.
  revert base. induction l as [|[k0 v0] l IH]; intros base; simpl; [done|].
  intros [Hk0 Hl]%NoDup_cons. rewrite IH // own_get_defineOwn /=.
  destruct (same_key k0 k) eqn:Hk; [|done].
  apply same_key_eq in Hk as ->.
  apply own_has_keys in Hk0. unfold own_has in Hk0.
  by destruct (own_get l k).
Qed.

Lemma own_get_standard d k :
  own_get
    (objectLiteral [ (lit "purpose", purpose d); (lit "usage", usage d);
                     (lit "limitations", limitations d) ]) k
  = standardValue d k.
Proof.
  unfold objectLiteral, standardValue. cbn [fold_left fst snd].
  rewrite !own_get_defineOwn /=.
  destruct (same_key k (lit "purpose")) eqn:H1.
  { apply same_key_eq in H1 as ->. reflexivity. }
  destruct (same_key k (lit "usage")) eqn:H2.
  { apply same_key_eq in H2 as ->. reflexivity. }
  destruct (same_key k (lit "limitations")) eqn:H3.
  { apply same_key_eq in H3 as ->. reflexivity. }
  apply same_key_ne in H1, H2, H3.
  rewrite (proj2 (same_key_ne (lit "limitations") k)); [done|].
  rewrite (proj2 (same_key_ne (lit "usage") k)); [done|].
  by rewrite (proj2 (same_key_ne (lit "purpose") k)).
Qed.

(** In the context that the conditions of custom sections are evaluated
    in, a custom property shadows the standard field of the same name:
    every key of the lookup holds the lookup's value, and purpose, usage and
    limitations hold the fields of the description only where the lookup
    has no entry of that name. The context is built whenever the lookup
    is; an exception of the lookup is the context's. *)
Theorem context_custom_shadows_standard (d : description) (k : jsstring) :
  distinctKeys d ->
  match customPropertiesLookup d with
  | Normal o =>
      exists context,
        Page.descriptionContext d = Normal context
        /\ own_get context k
           = match own_get (obj_own o) k with
             | Some v => Some v
             | None => standardValue d k
             end
  | Throw e => Page.descriptionContext d = Throw e
  end.
Proof.
  intros Hd. unfold Page.descriptionContext.
  destruct (customPropertiesLookup d) as [o|e] eqn:Ho; [|done].
  pose proof (lookup_keys_NoDup d o Hd Ho) as Hkeys.
  eexists. split; [reflexivity|]. unfold Object_entries.
  unfold objectLiteral. rewrite fold_left_app own_get_spread_distinct //.
  by rewrite -own_get_standard.
Qed.

End StoreExtras.

(** ** The standard fields of the route *)

Section PageExtras.
Context `{Engine}.

Lemma visible_inv isHidden f rs :
  Page.visible isHidden f = Normal rs ->
  (isHidden = true /\ rs = [])
  \/ (isHidden = false
      /\ exists r, Textarea.ValidatedTextarea (Page.textarea f) = Normal r
                   /\ rs = [r]).
Proof.
  unfold Page.visible. destruct isHidden.
  - intros [= <-]. by left.
  - destruct (Textarea.ValidatedTextarea _) as [r|e]; [|done].
    intros [= <-]. right. split; [done|]. by exists r.
Qed.



Lemma standardFields_inv c d rs :
  Page.standardFields c d = Normal rs ->
  exists purpose usage limitations,
    Page.visible (Page.isPurposeHidden c) (Page.purposeField c d) = Normal purpose
    /\ Page.visible (Page.isUsageHidden c) (Page.usageField c d) = Normal usage
    /\ Page.visible (Page.isLimitationsHidden c) (Page.limitationsField c d)
       = Normal limitations
    /\ rs = purpose ++ usage ++ limitations.
Proof.
  unfold Page.standardFields.
  destruct (Page.visible (Page.isPurposeHidden c) _) as [a|]; [|done].
  destruct (Page.visible (Page.isUsageHidden c) _) as [b|]; [|done].
  destruct (Page.visible (Page.isLimitationsHidden c) _) as [c'|]; [|done].
  intros [= <-]. by exists a, b, c'.
Qed.


Lemma field_aria f r :
  Textarea.rest (Page.textarea f) = [] ->
  Textarea.ValidatedTextarea (Page.textarea f) = Normal r ->
  own_get (controlProps r) (lit "aria-invalid")
  = Some (VBool (nonEmpty (messages r))).
Proof.
  intros Hrest Hr.
  destruct (ValidatedTextarea_inv _ r Hr) as (l & Hl & _).
  destruct (ValidatedTextarea_returns _ l Hl) as (r' & Hr' & Hm & Ha & _).
  rewrite Hr in Hr'. injection Hr' as <-. rewrite Hm. apply Ha.
  by rewrite Hrest.
Qed.

(** The route hands its textareas no pass-through props, so on this page
    aria-invalid always tells whether the field shows a message. *)
Theorem standard_fields_aria_invalid (c : Page.customization)
    (d : TermsOfUse.description) rs :
  Page.standardFields c d = Normal rs ->
  Forall (fun r => own_get (controlProps r) (lit "aria-invalid")
                   = Some (VBool (nonEmpty (messages r)))) rs.
Proof.
  intros (a & b & c' & Ha & Hb & Hc & ->)%standardFields_inv.
  rewrite !Forall_app. repeat split.
  - apply visible_inv in Ha as [[_ ->]|[_ (r & Hr & ->)]]; [constructor|].
    apply Forall_singleton. eapply field_aria; [|exact Hr]. reflexivity.
  - apply visible_inv in Hb as [[_ ->]|[_ (r & Hr & ->)]]; [constructor|].
    apply Forall_singleton. eapply field_aria; [|exact Hr]. reflexivity.
  - apply visible_inv in Hc as [[_ ->]|[_ (r & Hr & ->)]]; [constructor|].
    apply Forall_singleton. eapply field_aria; [|exact Hr]. reflexivity.
Qed.

Lemma plain_field_quiet f r :
  Textarea.required (Page.textarea f) = false ->
  Textarea.minLength (Page.textarea f) = None ->
  Textarea.maxLength (Page.textarea f) = None ->
  Textarea.ValidatedTextarea (Page.textarea f) = Normal r ->
  messages r = [].
Proof.
  intros Hreq Hmin Hmax Hr.
  destruct (ValidatedTextarea_inv _ r Hr) as (l & Hl & _).
  destruct (ValidatedTextarea_returns _ l Hl) as (r' & Hr' & Hm & _).
  rewrite Hr in Hr'. injection Hr' as <-. rewrite Hm.
  unfold Textarea.errorMessages in Hl. rewrite Hreq Hmin Hmax in Hl.
  destruct (Textarea.trimmed _); [|done]. by injection Hl as <-.
Qed.

(** Without customization (no override for any of the three fields) the
    standard fields never show a validation message, whatever text the
    description holds. *)
Theorem uncustomized_fields_show_no_message (c : Page.customization)
    (d : TermsOfUse.description) rs :
  Page.purposeOverride c = None ->
  Page.usageOverride c = None ->
  Page.limitationsOverride c = None ->
  Page.standardFields c d = Normal rs ->
  Forall (fun r => messages r = []) rs.
Proof.
  intros Hp Hu Hl (a & b & c' & Ha & Hb & Hc & ->)%standardFields_inv.
  rewrite !Forall_app. repeat split.
  - apply visible_inv in Ha as [[_ ->]|[_ (r & Hr & ->)]]; [constructor|].
    apply Forall_singleton. eapply plain_field_quiet; [..|exact Hr];
      by rewrite /= Hp.
  - apply visible_inv in Hb as [[_ ->]|[_ (r & Hr & ->)]]; [constructor|].
    apply Forall_singleton. eapply plain_field_quiet; [..|exact Hr];
      by rewrite /= Hu.
  - apply visible_inv in Hc as [[_ ->]|[_ (r & Hr & ->)]]; [constructor|].
    apply Forall_singleton. eapply plain_field_quiet; [..|exact Hr];
      by rewrite /= Hl.
Qed.

End PageExtras.

(** ** Bounds *)

Lemma SFcompare_between x a b :
  SFcompare x a = Some Lt ->
  SFcompare b x = Some Lt ->
  match SFcompare a b with
  | Some Lt | Some Eq => False
  | _ => True
  end.
Proof.
  destruct x as [sx|sx| |sx mx ex], a as [sa|sa| |sa ma ea],
    b as [sb|sb| |sb mb eb]; simpl;
    repeat match goal with s : bool |- _ => destruct s end; simpl;
    try discriminate; try done.
  all: change (Pos.compare_cont Eq) with Pos.compare.
  all: destruct (Z.compare_spec ex ea), (Z.compare_spec eb ex),
         (Z.compare_spec ea eb); try discriminate; try done; try lia.
  all: subst.
  all: destruct (Pos.compare_spec mx ma), (Pos.compare_spec mb mx),
         (Pos.compare_spec ma mb); simpl; try discriminate; try done; try lia.
Qed.

(** No number lies below a lower bound and above an upper bound that is
    not smaller. *)
Lemma ltb_between x a b :
  PrimFloat.ltb x a = true ->
  PrimFloat.ltb b x = true ->
  PrimFloat.leb a b = false.
Proof.
  rewrite !FloatAxioms.ltb_spec FloatAxioms.leb_spec. unfold SFltb, SFleb.
  intros Hlow Hhigh.
  pose proof (SFcompare_between (Prim2SF x) (Prim2SF a) (Prim2SF b)) as Hb.
  destruct (SFcompare (Prim2SF x) (Prim2SF a)) as [[]|]; try discriminate.
  destruct (SFcompare (Prim2SF b) (Prim2SF x)) as [[]|]; try discriminate.
  specialize (Hb eq_refl eq_refl).
  by destruct (SFcompare (Prim2SF a) (Prim2SF b)) as [[]|].
Qed.

Lemma not_both_sides x lower upper :
  consistent lower upper = true ->
  match lower, upper with
  | Some a, Some b => PrimFloat.ltb x a && PrimFloat.ltb b x = false
  | _, _ => True
  end.
Proof.
  destruct lower as [a|], upper as [b|]; try done. simpl. intros Hab.
  destruct (PrimFloat.ltb x a) eqn:Hlow, (PrimFloat.ltb b x) eqn:Hhigh;
    try done.
  by rewrite (ltb_between x a b Hlow Hhigh) in Hab.
Qed.

Section BoundExtras.
Context `{Engine}.

(** With bounds that leave room, ValidatedInput never reports a value on
    both sides: not both too short and too long when minLength is at most
    maxLength, and not both below the minimum and above the maximum when
    minimum is at most maximum. The range checks return for every value
    that can be converted to a number. *)
Theorem input_bounds_exclude_each_other (p : Input.props) :
  (consistent (Input.minLength p) (Input.maxLength p) = true ->
   Input.hasMinLengthError p && Input.hasMaxLengthError p = false)
  /\ (consistent (Input.minimum p) (Input.maximum p) = true ->
      match Input.hasMinimumError p, Input.hasMaximumError p with
      | Normal lo, Normal hi => lo && hi = false
      | _, _ => stringifiable (Input.value p) = false
      end).
Proof.
  split; intros Hroom.
  - pose proof (not_both_sides (length_number (Input.trimmed p)) _ _ Hroom)
      as Hsides.
    unfold Input.hasMinLengthError, Input.hasMaxLengthError.
    destruct (Input.minLength p) as [a|], (Input.maxLength p) as [b|];
      rewrite ?andb_false_r //.
    destruct (Input.skipInternalValidation p),
      (isEmptyString (Input.trimmed p)); simpl; try done.
  - destruct (stringifiable (Input.value p)) eqn:Hvalue.
    + destruct (numericValue_returns p Hvalue) as [x Hx].
      destruct (range_checks_eq p x Hx) as [-> ->].
      pose proof (not_both_sides x _ _ Hroom) as Hsides.
      destruct (Input.minimum p) as [a|], (Input.maximum p) as [b|];
        rewrite ?andb_false_r //.
      destruct (Input.skipInternalValidation p), (PrimFloat.is_nan x);
        simpl; try done.
    + destruct (range_checks_throw p _ (numericValue_throws p Hvalue))
        as [Hlo _].
      by rewrite Hlo.
Qed.

(** With length bounds that leave room, ValidatedTextarea shows at most
    one message. *)
Theorem textarea_at_most_one_message (q : Textarea.props) r :
  consistent (Textarea.minLength q) (Textarea.maxLength q) = true ->
  Textarea.ValidatedTextarea q = Normal r ->
  (length (messages r) <= 1)%nat.
Proof.
  intros Hroom Hr. destruct (ValidatedTextarea_inv q r Hr) as (l & Hl & _).
  destruct (ValidatedTextarea_returns q l Hl) as (r' & Hr' & Hm & _).
  rewrite Hr in Hr'. injection Hr' as <-. rewrite Hm. clear Hm Hr.
  destruct (Textarea.strValue q) as [| | | |s| |] eqn:Hs;
    try (unfold Textarea.errorMessages, Textarea.trimmed in Hl;
         by rewrite Hs in Hl).
  rewrite (Textarea_errorMessages_eq q s Hs) in Hl. injection Hl as <-.
  pose proof (not_both_sides (length_number (trim s)) _ _ Hroom) as Hsides.
  destruct (isEmptyString (trim s)); rewrite ?andb_true_r ?andb_false_r /=.
  - destruct (Textarea.minLength q), (Textarea.maxLength q),
      (Textarea.required q); simpl; lia.
  - destruct (Textarea.minLength q) as [a|], (Textarea.maxLength q) as [b|];
      simpl in *; unfold when; repeat case_condition; simpl; lia.
Qed.

End BoundExtras.

(** ** The further properties at sample inputs *)

Import MoreSamples.

Lemma skipped_validation_witness :
  exists r,
    Input.ValidatedInput
      (input (VStr []) true true (Some (lit "abc")) (Some 1%float) [lit "Taken"] [])
    = Normal r
    /\ messages r = [lit "Taken"].
Proof.
  apply (skipped_validation_shows_external_only
           (input (VStr []) true true (Some (lit "abc")) (Some 1%float)
              [lit "Taken"] [])).
  reflexivity.
Defined.

Lemma required_excludes_witness :
  Input.hasPatternError (input blanks true false (Some (lit "abc")) None [] [])
  = Normal false
  /\ Input.hasMinLengthError (input blanks true false (Some (lit "abc")) None [] [])
     = false
  /\ Input.hasMaxLengthError (input blanks true false (Some (lit "abc")) None [] [])
     = false.
Proof.
  apply (required_excludes_pattern_and_length
           (input blanks true false (Some (lit "abc")) None [] [])).
  reflexivity.
Defined.

Lemma nonstring_value_witness :
  exists r,
    Input.ValidatedInput
      (input (VNum 0%float) true false (Some (lit "abc")) (Some 1%float) [] [])
    = Normal r
    /\ messages r = [msg_required; lit "Minimum value is 1"].
Proof.
  destruct (nonstring_value_required_and_range_only
              (input (VNum 0%float) true false (Some (lit "abc"))
                 (Some 1%float) [] []) eq_refl)
    as (_ & _ & _ & r & req & lo & hi & Hreq & Hlo & Hhi & Hr & Hm).
  injection Hreq as <-. injection Hlo as <-. injection Hhi as <-.
  exists r. split; [exact Hr|]. rewrite Hm. reflexivity.
Defined.

Lemma error_paragraphs_witness :
  (exists r,
     Input.ValidatedInput (input (VStr []) true false None None [lit "Taken"] [])
     = Normal r
     /\ Forall (fun para => p_id para = lit "title-error") (errorParagraphs r)
     /\ List.map p_key (errorParagraphs r) = [0; 1]%nat
     /\ own_get (controlProps r) (lit "aria-describedby")
        = Some (VStr (lit "title-error")))
  /\ exists r,
       Textarea.ValidatedTextarea (textarea (VStr (lit "long enough text")) true [])
       = Normal r
       /\ Forall (fun para => p_id para = lit "description-purpose-error")
            (errorParagraphs r)
       /\ List.map p_key (errorParagraphs r) = []
       /\ own_get (controlProps r) (lit "aria-describedby") = Some VUndefined.
Proof.
  destruct error_paragraphs_match_describedby as [Hinput Htextarea]. split.
  - eexists. split; [reflexivity|].
    destruct (Hinput (input (VStr []) true false None None [lit "Taken"] [])
                _ eq_refl) as (Hids & Hkeys & Hdescribed).
    split; [exact Hids|]. split; [exact Hkeys|]. by apply Hdescribed.
  - eexists. split; [reflexivity|].
    destruct (Htextarea (textarea (VStr (lit "long enough text")) true [])
                _ eq_refl) as (Hids & Hkeys & Hdescribed).
    split; [exact Hids|]. split; [exact Hkeys|]. by apply Hdescribed.
Defined.

Lemma textarea_required_alone_witness :
  exists r,
    Textarea.ValidatedTextarea (textarea VUndefined true []) = Normal r
    /\ messages r = [msg_required].
Proof.
  eexists. split; [reflexivity|].
  apply (textarea_required_message_alone (textarea VUndefined true []) _ eq_refl).
  change (msg_required ∈ [msg_required]). by left.
Defined.

Lemma textarea_agrees_witness :
  exists rq rp,
    Textarea.ValidatedTextarea (textarea (VStr (lit " short ")) true [])
    = Normal rq
    /\ Input.ValidatedInput (asInput (textarea (VStr (lit " short ")) true []))
       = Normal rp
    /\ messages rp = messages rq.
Proof.
  apply (textarea_agrees_with_input (textarea (VStr (lit " short ")) true [])).
  reflexivity.
Defined.

Lemma surrounding_whitespace_witness :
  Input.hasMinLengthError (withValue (bounded (VStr (lit "  123456 ")))
                             (VStr (lit "123456")))
  = Input.hasMinLengthError (bounded (VStr (lit "  123456 ")))
  /\ Input.hasMaximumError (withValue (bounded (VStr (lit "  123456 ")))
                              (VStr (lit "123456")))
     = Input.hasMaximumError (bounded (VStr (lit "  123456 ")))
  /\ Input.errorMessages (withValue (bounded (VStr (lit "  123456 ")))
                            (VStr (lit "123456")))
     = Input.errorMessages (bounded (VStr (lit "  123456 "))).
Proof.
  destruct (surrounding_whitespace_ignored
              (bounded (VStr (lit "  123456 "))) (lit "  123456 "))
    as (_ & Hmin & _ & _ & Hhi & Hall); [reflexivity | discriminate |].
  split; [exact Hmin|]. split; [exact Hhi|]. by apply Hall.
Defined.


Lemma update_keeps_other_lookups_witness :
  exists d',
    updateCustomProperty (lit "owner") (VStr (lit "eve")) (doc (CArray distinct))
    = Normal d'
    /\ match customPropertiesLookup (doc (CArray distinct)),
             customPropertiesLookup d' with
       | Normal o, Normal o' =>
           own_get (obj_own o') (lit "tier") = own_get (obj_own o) (lit "tier")
       | Throw e, Throw e' => e = e'
       | _, _ => False
       end.
Proof.
  eexists. split; [reflexivity|].
  apply (update_keeps_other_lookups (lit "owner") (lit "tier")
           (VStr (lit "eve")) (doc (CArray distinct)));
    [exact I | discriminate | discriminate | reflexivity].
Defined.


(** With the name in two entries a set replaces the first, and the lookup
    still reads the second. *)
Example set_hidden_behind_duplicate :
  exists d' o,
    updateCustomProperty (lit "owner") (VStr (lit "eve")) (doc (CArray twice))
    = Normal d'
    /\ customPropertiesLookup d' = Normal o
    /\ own_get (obj_own o) (lit "owner") = Some (VStr (lit "bob")).
Proof. by eexists _, _. Qed.


(** A name that is the number 7 is compared as a number and filed as
    text: a delete of the text 7 keeps the entry, which the lookup still
    shows under that key; a set of the text 7 appends an entry, whose value
    the lookup then shows. *)
Example number_name_survives_delete :
  (exists d' o,
     updateCustomProperty (lit "7") VUndefined (doc (CArray [seventh "seven"]))
     = Normal d'
     /\ customProperties d' = CArray [seventh "seven"]
     /\ customPropertiesLookup d' = Normal o
     /\ own_get (obj_own o) (lit "7") = Some (VStr (lit "seven")))
  /\ exists d' o,
       updateCustomProperty (lit "7") (VStr (lit "c")) (doc (CArray [seventh "seven"]))
       = Normal d'
       /\ customProperties d' = CArray [seventh "seven"; entry "7" "c"]
       /\ customPropertiesLookup d' = Normal o
       /\ own_get (obj_own o) (lit "7") = Some (VStr (lit "c")).
Proof. split; by eexists _, _. Qed.

Lemma context_shadowing_witness :
  exists context,
    Page.descriptionContext shadowed = Normal context
    /\ own_get context (lit "purpose") = Some (VStr (lit "custom")).
Proof.
  destruct (context_custom_shadows_standard shadowed (lit "purpose") I)
    as (context & Hcontext & Hpurpose).
  exists context. split; [exact Hcontext|]. rewrite Hpurpose. reflexivity.
Defined.

Lemma standard_fields_aria_witness :
  exists rs,
    Page.standardFields strict shadowed = Normal rs
    /\ Forall (fun r => own_get (controlProps r) (lit "aria-invalid")
                        = Some (VBool (nonEmpty (messages r)))) rs.
Proof.
  eexists. split; [reflexivity|].
  apply (standard_fields_aria_invalid strict shadowed _ eq_refl).
Defined.

Lemma uncustomized_fields_witness :
  exists rs,
    Page.standardFields plain shadowed = Normal rs
    /\ Forall (fun r => messages r = []) rs.
Proof.
  eexists. split; [reflexivity|].
  apply (uncustomized_fields_show_no_message plain shadowed _);
    reflexivity.
Defined.

Lemma input_bounds_witness :
  Input.hasMinLengthError (bounded (VStr (lit "123456")))
  && Input.hasMaxLengthError (bounded (VStr (lit "123456"))) = false
  /\ exists lo hi,
       Input.hasMinimumError (bounded (VStr (lit "123456"))) = Normal lo
       /\ Input.hasMaximumError (bounded (VStr (lit "123456"))) = Normal hi
       /\ lo && hi = false.
Proof.
  destruct (input_bounds_exclude_each_other (bounded (VStr (lit "123456"))))
    as [Hlength Hrange].
  split; [by apply Hlength|].
  eexists _, _. split; [reflexivity|]. split; [reflexivity|].
  by apply Hrange.
Defined.

Lemma textarea_at_most_one_witness :
  exists r,
    Textarea.ValidatedTextarea (textarea (VStr (lit "short")) true []) = Normal r
    /\ (length (messages r) <= 1)%nat.
Proof.
  eexists. split; [reflexivity|].
  apply (textarea_at_most_one_message (textarea (VStr (lit "short")) true [])
           _ eq_refl eq_refl).
Defined.

(** The render of the standard fields ends at a number written where text
    belongs, unless the field is hidden. *)
Example numbered_limitations_throw :
  Page.standardFields plain numbered = Throw TypeError
  /\ exists rs, Page.standardFields strict numbered = Normal rs.
Proof. split; [reflexivity | by eexists]. Qed.
